(** * EPIC dashboard (app.py): the filter, the distributions and the map

    A shallow embedding of [main] of [app.py].  The script is a straight
    line of pandas calls; every call is embedded as a function on the
    values pandas works with:

    - a [DataFrame] is the list of its rows, in order, each with its index
      label; a [Series] is the list of the values of one column, in the
      same order;
    - a Python [float] is an IEEE 754 number, [spec_float] of the standard
      library, compared the way Python compares floats (every comparison
      with NaN is false, the two zeros are equal);
    - a Python [str] is a [string]; characters are [ascii];
    - a call that can raise returns a [result]. *)

From Stdlib Require Import List String Ascii Bool Arith ZArith Lia.
From Stdlib Require Import Permutation Sorted DecimalString.
From Stdlib Require Import Floats.SpecFloat.
Import ListNotations.

Local Open Scope string_scope.
Local Open Scope list_scope.

(** ** Exceptions *)

Inductive exn : Type :=
| re_error                 (* re.error, raised by re.compile *)
| KeyError (key : string)  (* raised by os.environ[key] *)
| IndexError               (* raised by take on a position out of bounds *)
| ValueError.              (* raised by sample on a sample over the rows *)

Inductive result (A : Type) : Type :=
| Ok (a : A)
| Raise (e : exn).

Arguments Ok {A} a.
Arguments Raise {A} e.

Definition bind {A B : Type} (c : result A) (k : A -> result B) : result B :=
  match c with
  | Ok a => k a
  | Raise e => Raise e
  end.

Notation "x <- c ;; k" := (bind c (fun x => k))
  (at level 61, c at next level, right associativity).

(** ** Python floats *)

Definition float : Type := spec_float.

(** [a >= b], [a <= b], [a < b] and [a == b] on floats. *)
Definition float_ge (a b : float) : bool :=
  match SFcompare a b with
  | Some (Gt | Eq) => true
  | _ => false
  end.

Definition float_le (a b : float) : bool := SFleb a b.
Definition float_lt (a b : float) : bool := SFltb a b.
Definition float_eq (a b : float) : bool := SFeqb a b.

Definition isnan (a : float) : bool :=
  match a with
  | S754_nan => true
  | _ => false
  end.

(** [float(z)] for an integer [z], in binary64. *)
Definition float_of_Z (z : Z) : float := binary_normalize 53 1024 z 0 false.

(** ** The rows *)

(** One row of [presampled_points] once lines 29-33 have coerced the
    columns: [tUNITS], [x], [y] to float, [vacant] to bool and
    [zipcode_str] to str. *)
Record point : Type := mkPoint {
  p_tUNITS : float;
  p_vacant : bool;
  p_zipcode_str : string;
  p_building_type : string;
  p_x : float;
  p_y : float
}.

(** One row of [data]: the columns of the table, its index label and the
    two columns lines 35-36 add. *)
Record row : Type := mkRow {
  index : nat;
  tUNITS : float;
  vacant : bool;
  zipcode_str : string;
  building_type : string;
  x : float;
  y : float;
  lat : float;
  lon : float
}.

Definition DataFrame : Type := list row.
Definition Series (A : Type) : Type := list A.

(** [len(df)] *)
Definition len (df : DataFrame) : nat := List.length df.

(** [data[name]] *)
Definition column {A : Type} (name : row -> A) (df : DataFrame) : Series A :=
  map name df.

(** [pd.read_sql_query]: the rows of the table under a RangeIndex, then
    lines 35-36. *)
Definition row_of_point (i : nat) (p : point) : row :=
  {| index := i;
     tUNITS := p_tUNITS p;
     vacant := p_vacant p;
     zipcode_str := p_zipcode_str p;
     building_type := p_building_type p;
     x := p_x p;
     y := p_y p;
     lat := p_y p;
     lon := p_x p |}.

Fixpoint range_index (start : nat) (table : list point) : DataFrame :=
  match table with
  | [] => []
  | p :: rest => row_of_point start p :: range_index (S start) rest
  end.

Definition read_sql_query (presampled_points : list point) : DataFrame :=
  range_index 0 presampled_points.

(** ** Series operations *)

(** [s >= v], [s <= v] and [s == b] against a scalar. *)
Definition Series_ge (s : Series float) (v : float) : Series bool :=
  map (fun u => float_ge u v) s.

Definition Series_le (s : Series float) (v : float) : Series bool :=
  map (fun u => float_le u v) s.

Definition Series_eq (s : Series bool) (b : bool) : Series bool :=
  map (fun v => Bool.eqb v b) s.

(** [s1 & s2] on two Series over the same index. *)
Fixpoint Series_and (s1 s2 : Series bool) : Series bool :=
  match s1, s2 with
  | b1 :: r1, b2 :: r2 => (b1 && b2) :: Series_and r1 r2
  | _, _ => []
  end.

(** [b | s] for a Python bool [b]. *)
Definition Series_ror (s : Series bool) (b : bool) : Series bool :=
  map (fun v => b || v) s.

(** [s.isin(values)] *)
Definition isin (s : Series string) (values : list string) : Series bool :=
  map (fun v => existsb (String.eqb v) values) s.

(** [df[mask]] for a boolean Series [mask] over the index of [df]. *)
Fixpoint getitem (df : DataFrame) (mask : Series bool) : DataFrame :=
  match df, mask with
  | r :: df', b :: mask' =>
      if b then r :: getitem df' mask' else getitem df' mask'
  | _, _ => []
  end.

(** ** Regular expressions (Python's [re], as pandas calls it)

    [Series.str.contains(pat)] is called with its defaults [case=True],
    [flags=0] and [regex=True]: pandas compiles [pat] with [re.compile]
    and keeps the rows where [regex.search(value)] finds a match.  The
    pattern language is modelled exactly on two classes of patterns; the
    behaviour of [re] on every other pattern is a parameter of the
    development. *)

(** The characters [re] gives a meaning of their own. *)
Definition re_special : list ascii :=
  list_ascii_of_string ".^$*+?{}[]\|()".

Definition is_special (c : ascii) : bool := existsb (Ascii.eqb c) re_special.

(** The three characters that repeat the item before them. *)
Definition is_repeat (c : ascii) : bool :=
  existsb (Ascii.eqb c) (list_ascii_of_string "*+?").

Definition newline : ascii := ascii_of_nat 10.

(** The items of a pattern made of ordinary characters and dots. *)
Inductive item : Type :=
| LITERAL (c : ascii)
| ANY.

Definition item_matches (i : item) (c : ascii) : bool :=
  match i with
  | LITERAL d => Ascii.eqb c d
  | ANY => negb (Ascii.eqb c newline)
  end.

Fixpoint parse_items (pat : string) : option (list item) :=
  match pat with
  | EmptyString => Some []
  | String c rest =>
      if Ascii.eqb c "." then option_map (cons ANY) (parse_items rest)
      else if is_special c then None
      else option_map (cons (LITERAL c)) (parse_items rest)
  end.

(** [regex.match(s)]: the items match a prefix of [s]. *)
Fixpoint match_items (items : list item) (s : string) : bool :=
  match items, s with
  | [], _ => true
  | i :: items', String c s' => item_matches i c && match_items items' s'
  | _ :: _, EmptyString => false
  end.

(** [regex.search(s) is not None]: the items match at some position. *)
Fixpoint search_items (items : list item) (s : string) : bool :=
  match_items items s ||
  match s with
  | EmptyString => false
  | String _ s' => search_items items s'
  end.

Section Filter.

(** What [re.compile] does with a pattern outside the two classes below:
    the exception it raises, or the [search(...) is not None] test of the
    compiled pattern. *)
Variable re_other : string -> result (string -> bool).

(** [re.compile(pat)], as the test [regex.search(s) is not None]:
    - a pattern that starts with a repeat character has nothing to repeat;
    - a pattern of ordinary characters and dots searches for its items. *)
Definition re_compile (pat : string) : result (string -> bool) :=
  match pat with
  | String c _ =>
      if is_repeat c then Raise re_error
      else match parse_items pat with
           | Some items => Ok (search_items items)
           | None => re_other pat
           end
  | EmptyString => Ok (search_items [])
  end.

(** [s.str.contains(pat)] *)
Definition str_contains (s : Series string) (pat : string)
  : result (Series bool) :=
  regex <- re_compile pat ;;
  Ok (map regex s).

(** ** Lines 72-81: the filter *)

Definition filtered (selected_units : float * float)
    (selected_zipcode selected_vacant : string)
    (selected_building_types : list string) (data : DataFrame)
  : result DataFrame :=
  zipcode_mask <- str_contains (column zipcode_str data) selected_zipcode ;;
  Ok (getitem data
        (Series_and
           (Series_and
              (Series_and
                 (Series_and
                    (Series_ge (column tUNITS data) (fst selected_units))
                    (Series_le (column tUNITS data) (snd selected_units)))
                 (isin (column building_type data) selected_building_types))
              zipcode_mask)
           (Series_ror
              (Series_eq (column vacant data) (selected_vacant =? "Vacant"))
              (selected_vacant =? "All")))).

End Filter.

(** ** Lines 87 and 100: the two distributions *)

(** The hash table [value_counts] fills over the values of a column: one
    entry per key, in order of first appearance, under the equality of the
    key type. *)
Section Tally.

Context {K : Type}.
Variable same : K -> K -> bool.

Fixpoint count_value (k : K) (counts : list (K * nat)) : list (K * nat) :=
  match counts with
  | [] => [(k, 1)]
  | (k', n) :: rest =>
      if same k' k then (k', S n) :: rest else (k', n) :: count_value k rest
  end.

Definition tally (s : Series K) : list (K * nat) :=
  fold_left (fun counts v => count_value v counts) s [].

End Tally.

(** A stable sort: each entry goes in front of the first entry that does
    not come before it. *)
Section Sort.

Context {A : Type}.
Variable before : A -> A -> bool.

Fixpoint insert (a : A) (l : list A) : list A :=
  match l with
  | [] => [a]
  | b :: l' => if before b a then b :: insert a l' else a :: b :: l'
  end.

Definition sort (l : list A) : list A := fold_right insert [] l.

End Sort.

(** [s.value_counts()] with its defaults [sort=True], [ascending=False],
    [dropna=True]: NaN is dropped, the values are counted and the entries
    ordered by count, highest first. *)
Definition value_counts (s : Series float) : list (float * nat) :=
  sort (fun p q => (snd q <? snd p)%nat)
       (tally float_eq (List.filter (fun v => negb (isnan v)) s)).

(** The same on a column of strings.  Among entries of equal count pandas
    fixes no order: [tie] says which of two such keys comes first. *)
Definition value_counts_str (tie : string -> string -> bool)
    (s : Series string) : list (string * nat) :=
  sort (fun p q =>
          (snd q <? snd p)%nat
          || ((snd q =? snd p)%nat && tie (fst p) (fst q)))
       (tally String.eqb s).

(** [counts.sort_index()]: by key, ascending. *)
Definition sort_index (counts : list (float * nat)) : list (float * nat) :=
  sort (fun p q => float_lt (fst p) (fst q)) counts.

Definition filtered_counts (tie : string -> string -> bool)
    (filtered : DataFrame) : list (string * nat) :=
  value_counts_str tie (column building_type filtered).

Definition unit_distribution (filtered : DataFrame) : list (float * nat) :=
  sort_index (value_counts (column tUNITS filtered)).

(** ** Lines 16-20: the token *)

(** The two things the first lines read: the file [.env], when it
    exists, as the bindings python-dotenv reads from its lines, in their
    order (a key with its value, or with none for a line that only names
    the key), and the environment of the process. *)
Record config : Type := mkConfig {
  dotenv_file : option (list (string * option string));
  environ : list (string * string)
}.

Fixpoint lookup {V : Type} (key : string) (env : list (string * V))
  : option V :=
  match env with
  | [] => None
  | (k, v) :: rest => if k =? key then Some v else lookup key rest
  end.

(** [d[key] = value] on a dict: a key the dict has takes the new value. *)
Fixpoint dict_set (d : list (string * option string)) (key : string)
    (value : option string) : list (string * option string) :=
  match d with
  | [] => [(key, value)]
  | (k, v) :: rest =>
      if k =? key then (k, value) :: rest
      else (k, v) :: dict_set rest key value
  end.

(** The dict python-dotenv builds of the bindings, one after the other. *)
Definition dotenv_values (bindings : list (string * option string))
  : list (string * option string) :=
  fold_left (fun d binding => dict_set d (fst binding) (snd binding))
    bindings [].

(** The items of the dict go to the environment: with [override=False] a
    variable the environment already has keeps its value, and a key
    without a value sets nothing. *)
Fixpoint set_as_environment_variables (d : list (string * option string))
    (env : list (string * string)) : list (string * string) :=
  match d with
  | [] => env
  | (k, v) :: rest =>
      match lookup k env, v with
      | None, Some value =>
          set_as_environment_variables rest (env ++ [(k, value)])
      | _, _ => set_as_environment_variables rest env
      end
  end.

(** [dotenv.load_dotenv] *)
Definition load_dotenv (bindings : list (string * option string))
    (env : list (string * string)) : list (string * string) :=
  set_as_environment_variables (dotenv_values bindings) env.

Definition token (c : config) : result (option string) :=
  match dotenv_file c with
  | Some bindings =>
      match lookup "MAPBOX_TOKEN" (load_dotenv bindings (environ c)) with
      | Some value => Ok (Some value)
      | None => Raise (KeyError "MAPBOX_TOKEN")
      end
  | None => Ok None
  end.

(** ** Lines 122-136: the map *)

(** What the page shows, in order. *)
Record figure : Type := mkFigure {
  points : DataFrame;
  mapbox_style : string;
  mapbox_accesstoken : option string
}.

Inductive element : Type :=
| header (text : string)
| write (text : string)
| warning (text : string)
| plotly_chart (fig : figure).

(** [str(n)] *)
Definition str (n : nat) : string := NilEmpty.string_of_uint (Nat.to_uint n).

(** [df.take(positions)] *)
Fixpoint take (df : DataFrame) (positions : list nat) : result DataFrame :=
  match positions with
  | [] => Ok []
  | i :: rest =>
      match nth_error df i with
      | Some r => rows <- take df rest ;; Ok (r :: rows)
      | None => Raise IndexError
      end
  end.

(** [df.sample(n)] with its default [replace=False]: a sample larger than
    the frame is refused; otherwise numpy draws a permutation of the
    positions of [df], here [permutation], and the rows at the first [n]
    of them are taken. *)
Definition sample (permutation : list nat) (n : nat) (df : DataFrame)
  : result DataFrame :=
  if (len df <? n)%nat then Raise ValueError
  else take df (firstn n permutation).

(** [if token:] *)
Definition truthy (tok : option string) : bool :=
  match tok with
  | Some (String _ _) => true
  | _ => false
  end.

Definition scatter_mapbox (tok : option string) (df : DataFrame) : figure :=
  if truthy tok
  then {| points := df; mapbox_style := "basic"; mapbox_accesstoken := tok |}
  else {| points := df; mapbox_style := "open-street-map";
          mapbox_accesstoken := None |}.

Definition building_map (tok : option string) (permutation : list nat)
    (filtered : DataFrame) : result (list element) :=
  let count := write ("Number of buildings: " ++ str (len filtered)) in
  if (1000 <? len filtered)%nat
  then
    shown <- sample permutation 1000 filtered ;;
    Ok [header "Building Map"; count;
        warning "Too many buildings to display. Showing 1000 random buildings.";
        plotly_chart (scatter_mapbox tok shown)]
  else
    Ok [header "Building Map"; count; plotly_chart (scatter_mapbox tok filtered)].

(** The rows the map plots. *)
Definition plotted (page : list element) : list DataFrame :=
  flat_map (fun e => match e with
                     | plotly_chart fig => [points fig]
                     | _ => []
                     end) page.

(** ** Lines 41-46 and 65-69: what the widgets are given *)

(** [a > b] on floats. *)
Definition float_gt (a b : float) : bool :=
  match SFcompare a b with
  | Some Gt => true
  | _ => false
  end.

(** The builtins [min(s)] and [max(s)] over the values of a Series: the
    first value is kept until a later one is smaller (for [max]: greater);
    an empty sequence is a [ValueError]. *)
Definition builtin_min (s : Series float) : result float :=
  match s with
  | [] => Raise ValueError
  | first :: rest =>
      Ok (fold_left
            (fun current item => if float_lt item current then item else current)
            rest first)
  end.

Definition builtin_max (s : Series float) : result float :=
  match s with
  | [] => Raise ValueError
  | first :: rest =>
      Ok (fold_left
            (fun current item => if float_gt item current then item else current)
            rest first)
  end.

(** The arguments of the slider of lines 41-46, in the order Python
    evaluates them: [min_value], [max_value] and the pair [value]. *)
Definition slider_arguments (data : DataFrame)
  : result (float * float * (float * float)) :=
  min_value <- builtin_min (column tUNITS data) ;;
  max_value <- builtin_max (column tUNITS data) ;;
  low <- builtin_min (column tUNITS data) ;;
  high <- builtin_max (column tUNITS data) ;;
  Ok (min_value, max_value, (low, high)).

(** [s.unique()]: the values of the Series, each once, in order of first
    appearance. *)
Fixpoint unique_from (seen : list string) (s : Series string) : list string :=
  match s with
  | [] => []
  | v :: rest =>
      if existsb (String.eqb v) seen then unique_from seen rest
      else v :: unique_from (v :: seen) rest
  end.

Definition unique (s : Series string) : list string := unique_from [] s.

(** The options and the default of the multiselect of lines 65-69. *)
Definition multiselect_arguments (data : DataFrame)
  : list string * list string :=
  (unique (column building_type data), unique (column building_type data)).

(** What the last line of the file that names [key] binds it to. *)
Fixpoint last_binding (key : string) (bindings : list (string * option string))
  : option (option string) :=
  match bindings with
  | [] => None
  | (k, v) :: rest =>
      match last_binding key rest with
      | Some later => Some later
      | None => if k =? key then Some v else None
      end
  end.

(** The sum of the counts of a distribution. *)
Definition total {K : Type} (counts : list (K * nat)) : nat :=
  list_sum (map snd counts).

(** * The properties, in the terms of the specification *)

(** ** The filter, row by row

    The four conditions of the filter on one row, for the compiled
    zipcode pattern [regex]: what the masks of [filtered] are shown to
    compute. *)
Definition row_passes (selected_units : float * float)
    (regex : string -> bool) (selected_vacant : string)
    (selected_building_types : list string) (r : row) : bool :=
  (float_le (fst selected_units) (tUNITS r)
   && float_le (tUNITS r) (snd selected_units))
  && existsb (String.eqb (building_type r)) selected_building_types
  && regex (zipcode_str r)
  && ((selected_vacant =? "All")
      || Bool.eqb (vacant r) (selected_vacant =? "Vacant")).

(** [f] holds some of the rows of [d], in the order of [d]. *)
Inductive subframe : DataFrame -> DataFrame -> Prop :=
| subframe_nil : subframe [] []
| subframe_keep r f d : subframe f d -> subframe (r :: f) (r :: d)
| subframe_drop r f d : subframe f d -> subframe f (r :: d).

(** ** Patterns of ordinary characters *)

(** No character of the pattern is one [re] gives a meaning to. *)
Fixpoint plain (pat : string) : bool :=
  match pat with
  | EmptyString => true
  | String c rest => negb (is_special c) && plain rest
  end.

(** The pattern read character by character, each one standing for
    itself. *)
Fixpoint literal_items (pat : string) : list item :=
  match pat with
  | EmptyString => []
  | String c rest => LITERAL c :: literal_items rest
  end.

(** [sub in s]: [s] contains [sub] as a contiguous run of characters. *)
Definition substring_of (sub s : string) : Prop :=
  exists before after, s = (before ++ sub ++ after)%string.

(** ** The distribution, entry by entry *)

(** The number of values of [s] equal to [k]. *)
Definition occurrences (k : float) (s : Series float) : nat :=
  List.length (List.filter (fun v => float_eq v k) s).

(** The total count the entries of a table give to the value [k]. *)
Fixpoint weight (counts : list (float * nat)) (k : float) : nat :=
  match counts with
  | [] => 0
  | (k', n) :: rest =>
      if float_eq k' k then n + weight rest k else weight rest k
  end.

(** Two entries with different keys; every key a number. *)
Definition other_key (p q : float * nat) : Prop :=
  float_eq (fst p) (fst q) = false.

Definition number_key (p : float * nat) : Prop := isnan (fst p) = false.

(** The order of [sort_index]. *)
Definition key_lt (p q : float * nat) : Prop :=
  float_lt (fst p) (fst q) = true.

(** ** Sample data *)

(** A stand-in for the part of [re] left open, for the closed examples;
    none of their patterns reaches it. *)
Definition re_unmodelled : string -> result (string -> bool) :=
  fun _ => Raise re_error.

Definition record_a : point :=
  mkPoint (float_of_Z 2) true "02139" "A" (float_of_Z 1) (float_of_Z 1).

Definition record_b : point :=
  mkPoint (float_of_Z 5) false "02140" "B" (float_of_Z 2) (float_of_Z 2).

Definition two_records : DataFrame := read_sql_query [record_a; record_b].

Definition units_0_10 : float * float := (float_of_Z 0, float_of_Z 10).

(** A table over the cap of the map: 1001 buildings. *)
Definition many_records : DataFrame := read_sql_query (repeat record_a 1001).

(** A settings file and an environment, neither with the token. *)
Definition config_without_token : config :=
  {| dotenv_file := Some [("DEBUG", Some "1")];
     environ := [("PATH", "/usr/bin")] |}.

(** A building without a unit count, and a table that starts with it. *)
Definition record_nan : point :=
  mkPoint S754_nan false "02139" "A" (float_of_Z 1) (float_of_Z 1).

Definition table_with_nan : DataFrame := read_sql_query [record_nan; record_a].

(** The widest range a slider can have. *)
Definition units_all : float * float := (S754_infinity true, S754_infinity false).

(** * Proofs *)

(** ** The order of floats *)

Ltac float_cases :=
  repeat match goal with
         | f : float |- _ => destruct f as [[]|[]| |[] ? ?]
         | f : spec_float |- _ => destruct f as [[]|[]| |[] ? ?]
         end.

Ltac compare_cases :=
  repeat match goal with
         | |- context [Pos.compare_cont Eq ?a ?b] =>
             change (Pos.compare_cont Eq a b) with (Pos.compare a b)
         | H : context [Pos.compare_cont Eq ?a ?b] |- _ =>
             change (Pos.compare_cont Eq a b) with (Pos.compare a b) in H
         end;
  repeat match goal with
         | |- context [Z.compare ?a ?b] => destruct (Z.compare_spec a b)
         | H : context [Z.compare ?a ?b] |- _ => destruct (Z.compare_spec a b)
         | |- context [Pos.compare ?a ?b] => destruct (Pos.compare_spec a b)
         | H : context [Pos.compare ?a ?b] |- _ =>
             destruct (Pos.compare_spec a b)
         end;
  simpl in *; subst; try congruence; try lia.

Lemma SFcompare_antisym (a b : float) :
  SFcompare b a = option_map CompOpp (SFcompare a b).
Proof. float_cases; simpl; try reflexivity; compare_cases. Qed.

Lemma SFcompare_eq_left (a b c : float) :
  SFcompare a b = Some Eq -> SFcompare a c = SFcompare b c.
Proof.
  intros H; float_cases; simpl in *; try congruence; compare_cases.
Qed.

Lemma SFcompare_lt_trans (a b c : float) :
  SFcompare a b = Some Lt -> SFcompare b c = Some Lt ->
  SFcompare a c = Some Lt.
Proof.
  intros H1 H2; float_cases; simpl in *; try congruence; compare_cases.
Qed.

Lemma SFcompare_defined (a b : float) :
  isnan a = false -> isnan b = false -> exists c, SFcompare a b = Some c.
Proof.
  intros Ha Hb; float_cases; simpl in *; try discriminate; eauto.
Qed.

(** [a >= b] is [b <= a]. *)
Lemma float_ge_le (a b : float) : float_ge a b = float_le b a.
Proof.
  unfold float_ge, float_le, SFleb.
  rewrite (SFcompare_antisym a b).
  destruct (SFcompare a b) as [[]|]; reflexivity.
Qed.

Lemma float_eq_sym (a b : float) : float_eq a b = float_eq b a.
Proof.
  unfold float_eq, SFeqb.
  rewrite (SFcompare_antisym a b).
  destruct (SFcompare a b) as [[]|]; reflexivity.
Qed.

Lemma float_eq_le (a b : float) : float_eq a b = true -> float_le a b = true.
Proof.
  unfold float_eq, float_le, SFeqb, SFleb.
  destruct (SFcompare a b) as [[]|]; congruence.
Qed.

Lemma float_eq_compare (a b : float) :
  float_eq a b = true -> SFcompare a b = Some Eq.
Proof.
  unfold float_eq, SFeqb.
  destruct (SFcompare a b) as [[]|]; congruence.
Qed.



Lemma float_le_notnan (a b : float) : float_le a b = true -> isnan a = false.
Proof. destruct a; unfold float_le, SFleb; simpl; congruence. Qed.

Lemma float_eq_refl (a : float) : isnan a = false -> float_eq a a = true.
Proof.
  intros Ha. unfold float_eq, SFeqb.
  float_cases; simpl in *; try congruence; compare_cases.
Qed.

Lemma float_eq_trans_eq (a b c : float) :
  float_eq a b = true -> float_eq a c = float_eq b c.
Proof.
  intros Hab. unfold float_eq at 1 2. unfold SFeqb.
  now rewrite (SFcompare_eq_left a b c (float_eq_compare a b Hab)).
Qed.

Lemma float_lt_trans (a b c : float) :
  float_lt a b = true -> float_lt b c = true -> float_lt a c = true.
Proof.
  unfold float_lt, SFltb. intros Hab Hbc.
  destruct (SFcompare a b) as [[]|] eqn:E1; try discriminate.
  destruct (SFcompare b c) as [[]|] eqn:E2; try discriminate.
  now rewrite (SFcompare_lt_trans a b c E1 E2).
Qed.

Lemma float_lt_total (a b : float) :
  isnan a = false -> isnan b = false ->
  float_eq b a = false -> float_lt b a = false -> float_lt a b = true.
Proof.
  intros Ha Hb. unfold float_eq, float_lt, SFeqb, SFltb.
  rewrite (SFcompare_antisym a b).
  destruct (SFcompare_defined a b Ha Hb) as [c ->].
  destruct c; simpl; congruence.
Qed.

(** ** The filter *)

Lemma Series_and_map {A : Type} (f g : A -> bool) (l : list A) :
  Series_and (map f l) (map g l) = map (fun a => f a && g a) l.
Proof. induction l as [|a l IH]; simpl; [reflexivity | now rewrite IH]. Qed.

Lemma getitem_map (p : row -> bool) (df : DataFrame) :
  getitem df (map p df) = List.filter p df.
Proof.
  induction df as [|r df IH]; simpl; [reflexivity|].
  rewrite IH. reflexivity.
Qed.

Lemma filter_subframe (p : row -> bool) (df : DataFrame) :
  subframe (List.filter p df) df.
Proof.
  induction df as [|r df IH]; simpl; [constructor|].
  destruct (p r); now constructor.
Qed.

Lemma filter_twice {A : Type} (p : A -> bool) (l : list A) :
  List.filter p (List.filter p l) = List.filter p l.
Proof.
  induction l as [|a l IH]; simpl; [reflexivity|].
  destruct (p a) eqn:E; simpl; [rewrite E, IH|]; auto.
Qed.

Lemma existsb_eqb_In (v : string) (values : list string) :
  existsb (String.eqb v) values = true <-> In v values.
Proof.
  rewrite existsb_exists. split.
  - intros [w [Hin Heq]]. apply String.eqb_eq in Heq. now subst.
  - intros Hin. exists v. split; [assumption | apply String.eqb_refl].
Qed.

(** [row_passes], condition by condition. *)
Lemma row_passes_iff lo hi regex sv bt r :
  row_passes (lo, hi) regex sv bt r = true <->
  (float_le lo (tUNITS r) = true /\ float_le (tUNITS r) hi = true)
  /\ In (building_type r) bt
  /\ regex (zipcode_str r) = true
  /\ (sv = "All" \/ vacant r = (sv =? "Vacant")).
Proof.
  unfold row_passes. simpl fst. simpl snd.
  rewrite !andb_true_iff, orb_true_iff, existsb_eqb_In, String.eqb_eq.
  rewrite Bool.eqb_true_iff. tauto.
Qed.

Section FilterFacts.

Variable re_other : string -> result (string -> bool).

(** When the pattern compiles, the five masks select the rows that pass. *)
Lemma filtered_rows su zc sv bt data regex :
  re_compile re_other zc = Ok regex ->
  filtered re_other su zc sv bt data
  = Ok (List.filter (row_passes su regex sv bt) data).
Proof.
  intros Hre. unfold filtered, str_contains. rewrite Hre. simpl.
  unfold Series_ge, Series_le, isin, Series_ror, Series_eq, column.
  rewrite !map_map, !Series_and_map, getitem_map.
  f_equal. apply filter_ext. intros r.
  unfold row_passes. now rewrite float_ge_le.
Qed.

(** When it does not, the exception of [re.compile] leaves the filter. *)
Lemma filtered_raise su zc sv bt data e :
  re_compile re_other zc = Raise e ->
  filtered re_other su zc sv bt data = Raise e.
Proof.
  intros Hre. unfold filtered, str_contains. now rewrite Hre.
Qed.

(** C1, as amended.  For every parameter set whose zipcode text is a
    pattern [re.compile] accepts, the filter returns exactly the rows of
    the input that satisfy the four conditions: the result holds rows of
    the input, in their order, and a row is in it if and only if it is in
    the input, its [tUNITS] lies in the range, its [building_type] is one
    of the selected types, the compiled pattern finds a match in its
    [zipcode_str], and the vacancy selector is "All" or its [vacant] flag
    equals [selected_vacant == "Vacant"]. *)
Theorem filtered_exact lo hi zc sv bt data regex :
  re_compile re_other zc = Ok regex ->
  exists f,
    filtered re_other (lo, hi) zc sv bt data = Ok f
    /\ subframe f data
    /\ forall r,
         In r f <->
         In r data
         /\ (float_le lo (tUNITS r) = true /\ float_le (tUNITS r) hi = true)
         /\ In (building_type r) bt
         /\ regex (zipcode_str r) = true
         /\ (sv = "All" \/ vacant r = (sv =? "Vacant")).
Proof.
  intros Hre. eexists. split; [apply filtered_rows, Hre|].
  split; [apply filter_subframe|].
  intros r. rewrite filter_In, row_passes_iff. tauto.
Qed.

(** C5, as amended.  For every input, every range, every vacancy selector
    and every zipcode text that [re.compile] accepts, the filter returns
    no row when no building type is selected. *)
Theorem filtered_no_building_type su zc sv data regex :
  re_compile re_other zc = Ok regex ->
  filtered re_other su zc sv [] data = Ok [].
Proof.
  intros Hre. rewrite (filtered_rows _ _ _ _ _ _ Hre). f_equal.
  induction data as [|r data IH]; simpl; [reflexivity|].
  unfold row_passes at 1. simpl existsb.
  now rewrite andb_false_r.
Qed.


(** C7.  The filter is idempotent: the filter applied to its own result,
    with the same parameters, gives that result again, the same rows in
    the same order. *)
Theorem filtered_idempotent su zc sv bt data :
  (f <- filtered re_other su zc sv bt data ;;
   filtered re_other su zc sv bt f)
  = filtered re_other su zc sv bt data.
Proof.
  destruct (re_compile re_other zc) as [regex | e] eqn:Hre.
  - rewrite (filtered_rows _ _ _ _ data _ Hre). simpl.
    rewrite (filtered_rows _ _ _ _ _ _ Hre).
    now rewrite filter_twice.
  - now rewrite (filtered_raise _ _ _ _ data _ Hre).
Qed.

End FilterFacts.

(** C1 fails as stated: on the zipcode text [*] the filter returns no
    subset of the two records, [re.compile] raises. *)
Lemma filtered_exact_fails :
  filtered re_unmodelled units_0_10 "*" "All" ["A"; "B"] two_records
  = Raise re_error.
Proof. reflexivity. Qed.

(** The two records under the zipcode text 0213. *)
Lemma filtered_exact_witness :
  exists f,
    filtered re_unmodelled units_0_10 "0213" "All" ["A"; "B"] two_records
    = Ok f
    /\ subframe f two_records
    /\ forall r,
         In r f <->
         In r two_records
         /\ (float_le (float_of_Z 0) (tUNITS r) = true
             /\ float_le (tUNITS r) (float_of_Z 10) = true)
         /\ In (building_type r) ["A"; "B"]
         /\ search_items [LITERAL "0"; LITERAL "2"; LITERAL "1"; LITERAL "3"]
              (zipcode_str r) = true
         /\ ("All" = "All" \/ vacant r = ("All" =? "Vacant")).
Proof.
  apply (filtered_exact re_unmodelled (float_of_Z 0) (float_of_Z 10) "0213").
  reflexivity.
Defined.

(** C5 fails as stated: with no building type selected and the zipcode
    text [*], the result is not empty, it is an exception. *)
Lemma filtered_no_building_type_fails :
  filtered re_unmodelled units_0_10 "*" "All" [] two_records
  <> Ok [].
Proof. discriminate. Qed.

(** The two records, no building type selected. *)
Lemma filtered_no_building_type_witness :
  filtered re_unmodelled units_0_10 "0213" "Vacant" [] two_records = Ok [].
Proof.
  apply (filtered_no_building_type re_unmodelled units_0_10 "0213" "Vacant"
           two_records
           (search_items [LITERAL "0"; LITERAL "2"; LITERAL "1"; LITERAL "3"])).
  reflexivity.
Defined.


(** ** Counting and sorting *)

Section SortFacts.

Context {A : Type}.
Variable before : A -> A -> bool.

Lemma insert_perm (a : A) (l : list A) :
  Permutation (insert before a l) (a :: l).
Proof.
  induction l as [|b l IH]; simpl; [reflexivity|].
  destruct (before b a); [|reflexivity].
  rewrite IH. apply perm_swap.
Qed.

Lemma sort_perm (l : list A) : Permutation (sort before l) l.
Proof.
  induction l as [|a l IH]; simpl; [reflexivity|].
  rewrite insert_perm. now constructor.
Qed.

End SortFacts.

Lemma FOP_perm {A : Type} (R : A -> A -> Prop) (l l' : list A) :
  (forall a b, R a b -> R b a) ->
  Permutation l l' -> ForallOrdPairs R l -> ForallOrdPairs R l'.
Proof.
  intros Hsym Hperm. induction Hperm as [|a l l' Hp IH|a b l|l l' l'' _ IH1 _ IH2].
  - auto.
  - intros H. inversion H; subst. constructor; [|auto].
    now rewrite <- Hp.
  - intros H. inversion H as [|? ? Hb Hrest]; subst.
    inversion Hb; subst. inversion Hrest; subst.
    constructor; [constructor; auto|]. now constructor.
  - auto.
Qed.

Lemma other_key_sym (p q : float * nat) : other_key p q -> other_key q p.
Proof. unfold other_key. now rewrite float_eq_sym. Qed.

(** *** The hash table of [value_counts] *)

Lemma weight_count_value (v k : float) (counts : list (float * nat)) :
  weight (count_value float_eq v counts) k
  = weight counts k + (if float_eq v k then 1 else 0).
Proof.
  induction counts as [|[k' n] rest IH]; simpl.
  - destruct (float_eq v k); reflexivity.
  - destruct (float_eq k' v) eqn:Hsame; simpl.
    + rewrite <- (float_eq_trans_eq k' v k Hsame).
      destruct (float_eq k' k); lia.
    + rewrite IH. destruct (float_eq k' k); lia.
Qed.

Lemma weight_fold (s : Series float) (acc : list (float * nat)) (k : float) :
  weight (fold_left (fun counts v => count_value float_eq v counts) s acc) k
  = weight acc k + occurrences k s.
Proof.
  revert acc. induction s as [|v s IH]; intros acc; simpl.
  - unfold occurrences. simpl. lia.
  - rewrite IH, weight_count_value. unfold occurrences. simpl.
    destruct (float_eq v k); simpl; lia.
Qed.

Lemma weight_tally (s : Series float) (k : float) :
  weight (tally float_eq s) k = occurrences k s.
Proof. unfold tally. now rewrite weight_fold. Qed.

Lemma count_value_Forall (P : float -> Prop) (v : float)
    (counts : list (float * nat)) :
  P v -> Forall (fun p => P (fst p)) counts ->
  Forall (fun p => P (fst p)) (count_value float_eq v counts).
Proof.
  intros Hv. induction counts as [|[k' n] rest IH]; simpl; intros H.
  - now constructor.
  - inversion H; subst.
    destruct (float_eq k' v); constructor; auto.
Qed.

Lemma count_value_other_key (v : float) (counts : list (float * nat)) :
  ForallOrdPairs other_key counts ->
  ForallOrdPairs other_key (count_value float_eq v counts).
Proof.
  induction counts as [|[k' n] rest IH]; simpl; intros H.
  - repeat constructor.
  - inversion H as [|? ? Hhead Hrest]; subst.
    destruct (float_eq k' v) eqn:Hsame.
    + constructor; assumption.
    + constructor; [|auto].
      apply (count_value_Forall (fun k => float_eq k' k = false)); assumption.
Qed.

Lemma tally_keys (s : Series float) :
  Forall (fun v => isnan v = false) s ->
  ForallOrdPairs other_key (tally float_eq s)
  /\ Forall number_key (tally float_eq s).
Proof.
  unfold tally.
  assert (G : forall acc,
             Forall (fun v => isnan v = false) s ->
             ForallOrdPairs other_key acc /\ Forall number_key acc ->
             ForallOrdPairs other_key
               (fold_left (fun counts v => count_value float_eq v counts) s acc)
             /\ Forall number_key
                  (fold_left (fun counts v => count_value float_eq v counts)
                     s acc)).
  { induction s as [|v s IH]; intros acc Hs [Hacc1 Hacc2]; simpl.
    - now split.
    - inversion Hs; subst. apply IH; [assumption|]. split.
      + now apply count_value_other_key.
      + now apply (count_value_Forall (fun k => isnan k = false)). }
  intros Hs. apply G; [assumption|]. split; constructor.
Qed.

Lemma weight_zero (k : float) (counts : list (float * nat)) :
  Forall (fun q => float_eq (fst q) k = false) counts -> weight counts k = 0.
Proof.
  induction 1 as [|[k' n] rest Hq _ IH]; simpl; [reflexivity|].
  simpl in Hq. now rewrite Hq.
Qed.

(** With one entry per key, the count of an entry is the weight of its key. *)
Lemma weight_entry (counts : list (float * nat)) (k : float) (n : nat) :
  ForallOrdPairs other_key counts -> Forall number_key counts ->
  In (k, n) counts -> weight counts k = n.
Proof.
  induction counts as [|[k' n'] rest IH]; simpl; intros Hkeys Hnum Hin.
  - contradiction.
  - inversion Hkeys as [|? ? Hhead Hrest]; subst.
    inversion Hnum as [|? ? Hk Hnum']; subst.
    destruct Hin as [Heq | Hin].
    + inversion Heq; subst. rewrite (float_eq_refl k Hk).
      rewrite weight_zero; [lia|].
      eapply Forall_impl; [|exact Hhead].
      intros q Hq. apply other_key_sym in Hq. exact Hq.
    + rewrite Forall_forall in Hhead. specialize (Hhead _ Hin).
      unfold other_key in Hhead. simpl in Hhead. rewrite Hhead. auto.
Qed.

Lemma weight_positive (counts : list (float * nat)) (v : float) :
  0 < weight counts v ->
  exists k n, In (k, n) counts /\ float_eq k v = true.
Proof.
  induction counts as [|[k' n'] rest IH]; simpl; intros H; [lia|].
  destruct (float_eq k' v) eqn:Hsame.
  - exists k', n'. auto.
  - destruct (IH H) as [k [n [Hin Heq]]]. exists k, n. auto.
Qed.

Lemma occurrences_positive (v : float) (s : Series float) :
  In v s -> isnan v = false -> 0 < occurrences v s.
Proof.
  intros Hin Hv. unfold occurrences.
  assert (Hf : In v (List.filter (fun u => float_eq u v) s)).
  { apply filter_In. split; [assumption | now apply float_eq_refl]. }
  destruct (List.filter (fun u => float_eq u v) s); simpl; [contradiction|lia].
Qed.

(** NaN equals no key: dropping it changes no count. *)
Lemma occurrences_dropna (k : float) (s : Series float) :
  occurrences k (List.filter (fun v => negb (isnan v)) s) = occurrences k s.
Proof.
  unfold occurrences. induction s as [|v s IH]; simpl; [reflexivity|].
  destruct (isnan v) eqn:Hv; simpl.
  - destruct v; try discriminate. exact IH.
  - destruct (float_eq v k); simpl; now rewrite IH.
Qed.

Lemma occurrences_column (k : float) (df : DataFrame) :
  occurrences k (column tUNITS df)
  = len (List.filter (fun r => float_eq (tUNITS r) k) df).
Proof.
  unfold occurrences, column, len.
  induction df as [|r df IH]; simpl; [reflexivity|].
  destruct (float_eq (tUNITS r) k); simpl; now rewrite IH.
Qed.

(** *** [sort_index] *)

Lemma insert_key_sorted (a : float * nat) (l : list (float * nat)) :
  StronglySorted key_lt l ->
  number_key a -> Forall number_key l -> Forall (other_key a) l ->
  StronglySorted key_lt
    (insert (fun p q => float_lt (fst p) (fst q)) a l).
Proof.
  intros Hsorted Ha. induction Hsorted as [|b l Hl IH Hb]; simpl; intros Hnum Hother.
  - repeat constructor.
  - inversion Hnum; subst. inversion Hother; subst.
    destruct (float_lt (fst b) (fst a)) eqn:Hlt.
    + constructor; [auto|].
      rewrite (insert_perm _ a l). constructor; assumption.
    + assert (Hab : key_lt a b).
      { apply float_lt_total; try assumption.
        now apply other_key_sym. }
      constructor; [now constructor|].
      constructor; [assumption|].
      eapply Forall_impl; [|exact Hb].
      intros c Hbc. eapply float_lt_trans; eassumption.
Qed.

Lemma sort_index_sorted (counts : list (float * nat)) :
  ForallOrdPairs other_key counts -> Forall number_key counts ->
  StronglySorted key_lt (sort_index counts).
Proof.
  unfold sort_index.
  induction counts as [|a l IH]; simpl; intros Hkeys Hnum.
  - constructor.
  - inversion Hkeys; subst. inversion Hnum; subst.
    apply insert_key_sorted; auto.
    + now rewrite sort_perm.
    + now rewrite sort_perm.
Qed.

Lemma count_value_positive (v : float) (counts : list (float * nat)) :
  Forall (fun p => 0 < snd p) counts ->
  Forall (fun p => 0 < snd p) (count_value float_eq v counts).
Proof.
  induction counts as [|[k' n] rest IH]; simpl; intros H.
  - repeat constructor.
  - inversion H; subst. simpl in *.
    destruct (float_eq k' v); constructor; simpl; auto; lia.
Qed.

Lemma tally_positive (s : Series float) :
  Forall (fun p => 0 < snd p) (tally float_eq s).
Proof.
  unfold tally.
  assert (G : forall acc,
             Forall (fun p => 0 < snd p) acc ->
             Forall (fun p => 0 < snd p)
               (fold_left (fun counts v => count_value float_eq v counts) s acc)).
  { induction s as [|v s IH]; intros acc Hacc; simpl; [assumption|].
    apply IH. now apply count_value_positive. }
  apply G. constructor.
Qed.

(** *** The distribution of a frame *)

Lemma unit_distribution_perm (df : DataFrame) :
  Permutation (unit_distribution df)
    (tally float_eq
       (List.filter (fun v => negb (isnan v)) (column tUNITS df))).
Proof.
  unfold unit_distribution, sort_index, value_counts.
  now rewrite !sort_perm.
Qed.

Lemma dropna_numbers (s : Series float) :
  Forall (fun v => isnan v = false) (List.filter (fun v => negb (isnan v)) s).
Proof.
  apply Forall_forall. intros v Hin. apply filter_In in Hin.
  destruct Hin as [_ Hv]. now apply negb_true_iff in Hv.
Qed.

Lemma unit_distribution_sorted (df : DataFrame) :
  StronglySorted key_lt (unit_distribution df).
Proof.
  unfold unit_distribution. apply sort_index_sorted.
  - unfold value_counts.
    eapply (FOP_perm other_key); [exact other_key_sym | symmetry; apply sort_perm |].
    apply tally_keys, dropna_numbers.
  - unfold value_counts. rewrite sort_perm.
    apply tally_keys, dropna_numbers.
Qed.

Lemma unit_distribution_count (df : DataFrame) (k : float) (n : nat) :
  In (k, n) (unit_distribution df) ->
  0 < n /\ n = len (List.filter (fun r => float_eq (tUNITS r) k) df).
Proof.
  intros Hin.
  apply (Permutation_in _ (unit_distribution_perm df)) in Hin.
  split.
  - pose proof (tally_positive
                  (List.filter (fun v => negb (isnan v)) (column tUNITS df)))
      as Hpos.
    rewrite Forall_forall in Hpos. exact (Hpos _ Hin).
  - destruct (tally_keys _ (dropna_numbers (column tUNITS df))) as [Hk Hn].
    rewrite <- (weight_entry _ k n Hk Hn Hin).
    now rewrite weight_tally, occurrences_dropna, occurrences_column.
Qed.

Lemma unit_distribution_covers (df : DataFrame) (r : row) :
  In r df -> isnan (tUNITS r) = false ->
  exists k n, In (k, n) (unit_distribution df) /\ float_eq (tUNITS r) k = true.
Proof.
  intros Hin Hnum.
  assert (Hpos : 0 < weight
                       (tally float_eq
                          (List.filter (fun v => negb (isnan v))
                             (column tUNITS df))) (tUNITS r)).
  { rewrite weight_tally, occurrences_dropna.
    apply occurrences_positive; [|assumption].
    unfold column. now apply in_map. }
  destruct (weight_positive _ _ Hpos) as [k [n [Hentry Heq]]].
  exists k, n. split.
  - eapply Permutation_in; [symmetry; apply unit_distribution_perm | exact Hentry].
  - now rewrite float_eq_sym.
Qed.

Section DistributionFacts.

Variable re_other : string -> result (string -> bool).

(** No row with a NaN [tUNITS] passes the filter. *)
Lemma filtered_numbers su zc sv bt data f :
  filtered re_other su zc sv bt data = Ok f ->
  Forall (fun r => isnan (tUNITS r) = false) f.
Proof.
  intros Hf.
  destruct (re_compile re_other zc) as [regex | e] eqn:Hre.
  - rewrite (filtered_rows _ _ _ _ _ _ _ Hre) in Hf.
    inversion Hf; subst. apply Forall_forall. intros r Hin.
    apply filter_In in Hin. destruct Hin as [_ Hpass].
    destruct su as [lo hi]. apply row_passes_iff in Hpass.
    destruct Hpass as [[_ Hhi] _]. exact (float_le_notnan _ _ Hhi).
  - rewrite (filtered_raise _ _ _ _ _ _ _ Hre) in Hf. discriminate.
Qed.

(** C8.  The distribution of [tUNITS] over a filtered set has one entry
    per exact value: the entries are in ascending order of their keys, no
    two keys equal; the count of an entry is the number of rows whose
    [tUNITS] equals its key, at least one; and every row of the filtered
    set is counted by an entry, the one whose key equals its [tUNITS]. *)
Theorem unit_distribution_exact su zc sv bt data f :
  filtered re_other su zc sv bt data = Ok f ->
  StronglySorted key_lt (unit_distribution f)
  /\ (forall k n,
        In (k, n) (unit_distribution f) ->
        0 < n /\ n = len (List.filter (fun r => float_eq (tUNITS r) k) f))
  /\ (forall r,
        In r f ->
        exists k n,
          In (k, n) (unit_distribution f) /\ float_eq (tUNITS r) k = true).
Proof.
  intros Hf. split; [apply unit_distribution_sorted|].
  split; [apply unit_distribution_count|].
  intros r Hin. apply unit_distribution_covers; [assumption|].
  pose proof (filtered_numbers _ _ _ _ _ _ Hf) as Hnum.
  rewrite Forall_forall in Hnum. now apply Hnum.
Qed.

End DistributionFacts.

(** The distribution of the two records, unfiltered. *)
Lemma unit_distribution_exact_witness :
  StronglySorted key_lt (unit_distribution two_records)
  /\ (forall k n,
        In (k, n) (unit_distribution two_records) ->
        0 < n
        /\ n = len (List.filter (fun r => float_eq (tUNITS r) k) two_records))
  /\ (forall r,
        In r two_records ->
        exists k n,
          In (k, n) (unit_distribution two_records)
          /\ float_eq (tUNITS r) k = true).
Proof.
  apply (unit_distribution_exact re_unmodelled units_0_10 "" "All" ["A"; "B"]
           two_records two_records).
  reflexivity.
Defined.

(** ** The zipcode pattern *)

Lemma ordinary_not_dot (c : ascii) :
  is_special c = false -> Ascii.eqb c "." = false.
Proof.
  unfold is_special, re_special. simpl. intros H.
  now apply orb_false_iff in H.
Qed.

Lemma ordinary_not_repeat (c : ascii) :
  is_special c = false -> is_repeat c = false.
Proof.
  unfold is_special, re_special, is_repeat. simpl. intros H.
  repeat (apply orb_false_iff in H; let E := fresh "E" in destruct H as [E H]).
  repeat match goal with
         | E : Ascii.eqb _ _ = false |- _ => rewrite E; clear E
         end.
  reflexivity.
Qed.

Lemma parse_items_plain (pat : string) :
  plain pat = true -> parse_items pat = Some (literal_items pat).
Proof.
  induction pat as [|c rest IH]; simpl; [reflexivity|].
  intros H. apply andb_true_iff in H. destruct H as [Hc Hrest].
  apply negb_true_iff in Hc.
  rewrite (ordinary_not_dot c Hc), Hc, (IH Hrest). reflexivity.
Qed.

Lemma match_literal (pat s : string) :
  match_items (literal_items pat) s = true
  <-> exists after, s = (pat ++ after)%string.
Proof.
  revert s. induction pat as [|c rest IH]; intros s; simpl.
  - split; [intros _; now exists s | reflexivity].
  - destruct s as [|d s']; simpl.
    + split; [discriminate | intros [after H]; discriminate].
    + rewrite andb_true_iff, IH, Ascii.eqb_eq. split.
      * intros [-> [after ->]]. now exists after.
      * intros [after H]. inversion H; subst. split; [reflexivity|].
        now exists after.
Qed.

Lemma search_literal (pat s : string) :
  search_items (literal_items pat) s = true <-> substring_of pat s.
Proof.
  unfold substring_of. induction s as [|d s' IH].
  - simpl. rewrite orb_false_r, match_literal. split.
    + intros [after H]. now exists "", after.
    + intros [[|c before] [after H]]; simpl in H; [now exists after|discriminate].
  - change (search_items (literal_items pat) (String d s'))
      with (match_items (literal_items pat) (String d s')
            || search_items (literal_items pat) s').
    rewrite orb_true_iff, match_literal, IH. split.
    + intros [[after H] | [before [after H]]].
      * now exists "", after.
      * exists (String d before), after. simpl. now rewrite H.
    + intros [[|c before] [after H]]; simpl in H.
      * left. now exists after.
      * right. inversion H; subst. now exists before, after.
Qed.

Section PatternFacts.

Variable re_other : string -> result (string -> bool).

Lemma re_compile_plain (pat : string) :
  plain pat = true ->
  re_compile re_other pat = Ok (search_items (literal_items pat)).
Proof.
  intros H. destruct pat as [|c rest]; [reflexivity|].
  unfold re_compile. rewrite (parse_items_plain _ H).
  simpl in H. apply andb_true_iff in H. destruct H as [Hc _].
  apply negb_true_iff in Hc. now rewrite (ordinary_not_repeat c Hc).
Qed.

(** A text that starts with a repeat character is no pattern, whatever
    follows. *)
Lemma re_compile_repeat (c : ascii) (rest : string) :
  is_repeat c = true -> re_compile re_other (String c rest) = Raise re_error.
Proof. intros H. unfold re_compile. now rewrite H. Qed.

(** C2, as amended.  For every zipcode text with no character that [re]
    gives a meaning to, the zipcode test holds for a row if and only if
    the [zipcode_str] of the row contains the text as a contiguous run of
    characters, case and position as they are; the empty text matches
    every row. *)
Theorem str_contains_plain (pat : string) :
  plain pat = true ->
  exists regex,
    re_compile re_other pat = Ok regex
    /\ (forall s, str_contains re_other s pat = Ok (map regex s))
    /\ (forall zipcode, regex zipcode = true <-> substring_of pat zipcode)
    /\ (pat = "" -> forall zipcode, regex zipcode = true).
Proof.
  intros H. exists (search_items (literal_items pat)).
  split; [now apply re_compile_plain|].
  split; [|split].
  - intros s. unfold str_contains. now rewrite (re_compile_plain _ H).
  - intros zipcode. apply search_literal.
  - intros -> zipcode. destruct zipcode; reflexivity.
Qed.

End PatternFacts.

(** C2 fails as stated: the dot of the zipcode text [0.1] stands for any
    character, so the test holds for the zipcode [02139], which does not
    contain [0.1]. *)
Lemma str_contains_plain_fails :
  str_contains re_unmodelled ["02139"] "0.1" = Ok [true]
  /\ ~ substring_of "0.1" "02139".
Proof.
  split; [reflexivity|].
  intros H. apply search_literal in H. discriminate.
Qed.

(** The zipcode text 0213 has ordinary characters only. *)
Lemma str_contains_plain_witness :
  exists regex,
    re_compile re_unmodelled "0213" = Ok regex
    /\ (forall s, str_contains re_unmodelled s "0213" = Ok (map regex s))
    /\ (forall zipcode, regex zipcode = true <-> substring_of "0213" zipcode)
    /\ ("0213" = "" -> forall zipcode, regex zipcode = true).
Proof.
  apply (str_contains_plain re_unmodelled "0213"). reflexivity.
Defined.

(** ** The sample and the map *)

Lemma take_rows (df : DataFrame) (positions : list nat) :
  Forall (fun i => i < len df) positions ->
  exists rows,
    take df positions = Ok rows
    /\ Forall2 (fun i r => nth_error df i = Some r) positions rows.
Proof.
  induction 1 as [|i rest Hi _ [rows [Htake Hrows]]]; simpl.
  - exists []. split; [reflexivity | constructor].
  - destruct (nth_error df i) as [r|] eqn:Hnth.
    + exists (r :: rows). rewrite Htake. split; [reflexivity|].
      now constructor.
    + apply nth_error_None in Hnth. unfold len in Hi. lia.
Qed.

Lemma Forall2_In_r {A B : Type} (P : A -> B -> Prop) (l : list A)
    (l' : list B) (b : B) :
  Forall2 P l l' -> In b l' -> exists a, In a l /\ P a b.
Proof.
  induction 1 as [|a0 b0 l l' H0 _ IH]; simpl; [contradiction|].
  intros [<- | Hin].
  - exists a0. auto.
  - destruct (IH Hin) as [a [Ha HP]]. exists a. auto.
Qed.

Lemma taken_distinct (df rows : DataFrame) (positions : list nat) :
  NoDup (column index df) -> NoDup positions ->
  Forall2 (fun i r => nth_error df i = Some r) positions rows ->
  NoDup (column index rows).
Proof.
  intros Hdf Hpos Hrows. unfold column in *.
  induction Hrows as [|i r positions rows Hi Hrest IH]; simpl.
  - constructor.
  - inversion Hpos as [|? ? Hnotin Hpos']; subst.
    constructor; [|auto].
    intros Hin. apply in_map_iff in Hin.
    destruct Hin as [r' [Hlabel Hin]].
    destruct (Forall2_In_r _ _ _ _ Hrest Hin) as [j [Hj Hnth]].
    apply Hnotin.
    assert (Hij : i = j).
    { rewrite NoDup_nth_error in Hdf. apply Hdf.
      - rewrite length_map. apply nth_error_Some. congruence.
      - rewrite !nth_error_map, Hi, Hnth. simpl. now rewrite Hlabel. }
    now subst.
Qed.

Lemma firstn_incl {A : Type} (n : nat) (l : list A) (a : A) :
  In a (firstn n l) -> In a l.
Proof.
  intros H. rewrite <- (firstn_skipn n l). apply in_or_app. now left.
Qed.

Lemma firstn_NoDup {A : Type} (n : nat) (l : list A) :
  NoDup l -> NoDup (firstn n l).
Proof.
  intros H. rewrite <- (firstn_skipn n l) in H.
  exact (NoDup_app_remove_r _ _ H).
Qed.

(** A sample of [n] rows, [n] at most the number of rows: [n] rows of the
    frame, at [n] different positions. *)
Lemma sample_rows (permutation : list nat) (n : nat) (df : DataFrame) :
  Permutation permutation (seq 0 (len df)) -> n <= len df ->
  exists shown,
    sample permutation n df = Ok shown
    /\ len shown = n
    /\ (forall r, In r shown -> In r df)
    /\ (NoDup (column index df) -> NoDup (column index shown)).
Proof.
  intros Hperm Hn. unfold sample.
  rewrite (proj2 (Nat.ltb_ge _ _) Hn).
  assert (Hrange : Forall (fun i => i < len df) (firstn n permutation)).
  { apply Forall_forall. intros i Hi. apply firstn_incl in Hi.
    apply (Permutation_in _ Hperm) in Hi. apply in_seq in Hi. lia. }
  destruct (take_rows df _ Hrange) as [shown [Htake Hrows]].
  exists shown. split; [assumption|]. split; [|split].
  - unfold len. rewrite <- (Forall2_length Hrows), length_firstn.
    rewrite (Permutation_length Hperm), length_seq. lia.
  - intros r Hin.
    destruct (Forall2_In_r _ _ _ _ Hrows Hin) as [i [_ Hnth]].
    exact (nth_error_In _ _ Hnth).
  - intros Hdf. apply (taken_distinct df shown (firstn n permutation));
      [assumption | | assumption].
    apply firstn_NoDup.
    apply (Permutation_NoDup (Permutation_sym Hperm)), seq_NoDup.
Qed.

(** C3.  Whatever the token and the permutation numpy draws: over 1000
    filtered rows, the page writes the number of filtered rows, warns, and
    plots exactly 1000 rows, each a row of the filtered set; at 1000 rows
    or fewer it writes the same count and plots the filtered set itself,
    with no warning. *)
Theorem building_map_cap (tok : option string) (permutation : list nat)
    (f : DataFrame) :
  Permutation permutation (seq 0 (len f)) ->
  (1000 < len f ->
   exists shown,
     building_map tok permutation f
     = Ok [header "Building Map";
           write ("Number of buildings: " ++ str (len f));
           warning
             "Too many buildings to display. Showing 1000 random buildings.";
           plotly_chart (scatter_mapbox tok shown)]
     /\ len shown = 1000
     /\ forall r, In r shown -> In r f)
  /\ (len f <= 1000 ->
      building_map tok permutation f
      = Ok [header "Building Map";
            write ("Number of buildings: " ++ str (len f));
            plotly_chart (scatter_mapbox tok f)]).
Proof.
  intros Hperm. unfold building_map. split; intros Hlen.
  - destruct (sample_rows permutation 1000 f Hperm) as
      [shown [Hsample [Hshown [Hin _]]]]; [lia|].
    exists shown. apply Nat.ltb_lt in Hlen. rewrite Hlen, Hsample.
    auto.
  - apply Nat.ltb_ge in Hlen. now rewrite Hlen.
Qed.

Lemma range_index_labels (start : nat) (table : list point) :
  column index (range_index start table) = seq start (List.length table).
Proof.
  revert start. induction table as [|p rest IH]; intros start; simpl.
  - reflexivity.
  - f_equal. apply IH.
Qed.

Lemma filter_labels (p : row -> bool) (df : DataFrame) :
  NoDup (column index df) -> NoDup (column index (List.filter p df)).
Proof.
  unfold column. induction df as [|r df IH]; simpl; intros H.
  - constructor.
  - inversion H as [|? ? Hnotin Hrest]; subst.
    destruct (p r); simpl; [|auto].
    constructor; [|auto].
    intros Hin. apply Hnotin. apply in_map_iff in Hin.
    destruct Hin as [r' [Hlabel Hin]]. apply filter_In in Hin.
    apply in_map_iff. exists r'. tauto.
Qed.

Section MapFacts.

Variable re_other : string -> result (string -> bool).

(** The rows the filter keeps of a loaded table have different labels. *)
Lemma filtered_labels su zc sv bt table f :
  filtered re_other su zc sv bt (read_sql_query table) = Ok f ->
  NoDup (column index f).
Proof.
  intros Hf.
  destruct (re_compile re_other zc) as [regex | e] eqn:Hre.
  - rewrite (filtered_rows _ _ _ _ _ _ _ Hre) in Hf. inversion Hf; subst.
    apply filter_labels. unfold read_sql_query.
    rewrite range_index_labels. apply seq_NoDup.
  - rewrite (filtered_raise _ _ _ _ _ _ _ Hre) in Hf. discriminate.
Qed.

(** C10.  When the filter keeps over 1000 rows of the loaded table, the
    1000 rows the map plots are rows of the filtered set with 1000
    different index labels: no row of the table is plotted twice. *)
Theorem building_map_distinct su zc sv bt table f tok permutation :
  filtered re_other su zc sv bt (read_sql_query table) = Ok f ->
  Permutation permutation (seq 0 (len f)) ->
  1000 < len f ->
  exists page shown,
    building_map tok permutation f = Ok page
    /\ plotted page = [shown]
    /\ len shown = 1000
    /\ (forall r, In r shown -> In r f)
    /\ NoDup (column index shown)
    /\ NoDup shown.
Proof.
  intros Hf Hperm Hlen.
  destruct (sample_rows permutation 1000 f Hperm) as
    [shown [Hsample [Hshown [Hin Hlabels]]]]; [lia|].
  specialize (Hlabels (filtered_labels _ _ _ _ _ _ Hf)).
  unfold building_map. apply Nat.ltb_lt in Hlen. rewrite Hlen, Hsample.
  simpl. eexists. exists shown. split; [reflexivity|].
  split.
  - unfold plotted, scatter_mapbox. simpl. now destruct (truthy tok).
  - repeat split; try assumption.
    exact (NoDup_map_inv _ _ Hlabels).
Qed.

End MapFacts.

(** 1001 rows, drawn in the order of the table. *)
Lemma building_map_cap_witness :
  exists shown,
    building_map None (seq 0 1001) many_records
    = Ok [header "Building Map";
          write ("Number of buildings: " ++ str (len many_records));
          warning
            "Too many buildings to display. Showing 1000 random buildings.";
          plotly_chart (scatter_mapbox None shown)]
    /\ len shown = 1000
    /\ forall r, In r shown -> In r many_records.
Proof.
  apply (proj1 (building_map_cap None (seq 0 1001) many_records
                  (Permutation_refl _))).
  apply Nat.ltb_lt. vm_compute. reflexivity.
Defined.

(** 1001 rows of a loaded table, all kept by the filter. *)
Lemma building_map_distinct_witness :
  exists page shown,
    building_map None (seq 0 1001) many_records = Ok page
    /\ plotted page = [shown]
    /\ len shown = 1000
    /\ (forall r, In r shown -> In r many_records)
    /\ NoDup (column index shown)
    /\ NoDup shown.
Proof.
  apply (building_map_distinct re_unmodelled units_0_10 "" "All" ["A"]
           (repeat record_a 1001) many_records None (seq 0 1001)).
  - vm_compute. reflexivity.
  - apply Permutation_refl.
  - apply Nat.ltb_lt. vm_compute. reflexivity.
Defined.

(** ** The token *)

Lemma lookup_append {V : Type} (key : string) (env env' : list (string * V)) :
  lookup key (env ++ env')
  = match lookup key env with
    | Some v => Some v
    | None => lookup key env'
    end.
Proof.
  induction env as [|[k v] env IH]; simpl; [reflexivity|].
  destruct (k =? key)%string; [reflexivity | exact IH].
Qed.

Lemma lookup_absent {V : Type} (key : string) (env : list (string * V)) :
  ~ In key (map fst env) -> lookup key env = None.
Proof.
  induction env as [|[k v] env IH]; simpl; [reflexivity|].
  intros H. destruct (k =? key)%string eqn:Hk.
  - apply String.eqb_eq in Hk. tauto.
  - apply IH. tauto.
Qed.

Lemma lookup_dict_set (d : list (string * option string)) (k key : string)
    (v : option string) :
  lookup key (dict_set d k v)
  = if (k =? key)%string then Some v else lookup key d.
Proof.
  induction d as [|[k0 v0] rest IH]; simpl; [reflexivity|].
  destruct (k0 =? k)%string eqn:H0; simpl.
  - apply String.eqb_eq in H0. subst k0.
    destruct (k =? key)%string; reflexivity.
  - rewrite IH. destruct (k0 =? key)%string eqn:H1; [|reflexivity].
    apply String.eqb_eq in H1. subst k0.
    rewrite String.eqb_sym in H0. now rewrite H0.
Qed.

Lemma dict_set_keys (d : list (string * option string)) (k key : string)
    (v : option string) :
  In key (map fst (dict_set d k v)) <-> key = k \/ In key (map fst d).
Proof.
  induction d as [|[k0 v0] rest IH]; simpl.
  - intuition.
  - destruct (k0 =? k)%string eqn:H0; simpl.
    + apply String.eqb_eq in H0. subst k0. intuition.
    + rewrite IH. intuition.
Qed.

Lemma dict_set_NoDup (d : list (string * option string)) (k : string)
    (v : option string) :
  NoDup (map fst d) -> NoDup (map fst (dict_set d k v)).
Proof.
  induction d as [|[k0 v0] rest IH]; simpl; intros H.
  - repeat constructor. intros [].
  - inversion H as [|? ? Hnotin Hrest]; subst.
    destruct (k0 =? k)%string eqn:H0; simpl.
    + now constructor.
    + constructor; [|auto].
      rewrite dict_set_keys. intros [-> | Hin]; [|contradiction].
      rewrite String.eqb_refl in H0. discriminate.
Qed.

(** The dict holds one item per key, with the value of its last binding. *)
Lemma dotenv_values_dict (bindings : list (string * option string)) :
  NoDup (map fst (dotenv_values bindings))
  /\ forall key,
       lookup key (dotenv_values bindings) = last_binding key bindings.
Proof.
  unfold dotenv_values.
  assert (G : forall d,
             NoDup (map fst d) ->
             NoDup (map fst
                      (fold_left
                         (fun d binding => dict_set d (fst binding) (snd binding))
                         bindings d))
             /\ forall key,
                  lookup key
                    (fold_left
                       (fun d binding => dict_set d (fst binding) (snd binding))
                       bindings d)
                  = match last_binding key bindings with
                    | Some later => Some later
                    | None => lookup key d
                    end).
  { induction bindings as [|[k v] rest IH]; intros d Hd; simpl.
    - now split.
    - destruct (IH (dict_set d k v) (dict_set_NoDup d k v Hd)) as [Hkeys Hget].
      split; [assumption|]. intros key. rewrite Hget, lookup_dict_set.
      destruct (last_binding key rest); [reflexivity|].
      destruct (k =? key)%string; reflexivity. }
  destruct (G [] (NoDup_nil _)) as [Hkeys Hget]. split; [assumption|].
  intros key. rewrite Hget. now destruct (last_binding key bindings).
Qed.

Lemma set_as_environment_variables_lookup (d : list (string * option string))
    (env : list (string * string)) (key : string) :
  NoDup (map fst d) ->
  lookup key (set_as_environment_variables d env)
  = match lookup key env with
    | Some value => Some value
    | None =>
        match lookup key d with
        | Some (Some value) => Some value
        | _ => None
        end
    end.
Proof.
  revert env. induction d as [|[k v] rest IH]; intros env Hd.
  - simpl. now destruct (lookup key env).
  - inversion Hd as [|? ? Hnotin Hrest]; subst.
    simpl set_as_environment_variables.
    change (lookup key ((k, v) :: rest))
      with (if (k =? key)%string then Some v else lookup key rest).
    destruct (lookup k env) as [old|] eqn:Hk; [|destruct v as [value|]].
    + rewrite (IH env Hrest).
      destruct (lookup key env) eqn:Hkey; [reflexivity|].
      destruct (k =? key)%string eqn:Heq; [|reflexivity].
      apply String.eqb_eq in Heq. congruence.
    + rewrite (IH _ Hrest), lookup_append. simpl.
      destruct (lookup key env) eqn:Hkey; [reflexivity|].
      destruct (k =? key)%string eqn:Heq; [reflexivity|].
      reflexivity.
    + rewrite (IH env Hrest).
      destruct (lookup key env) eqn:Hkey; [reflexivity|].
      destruct (k =? key)%string eqn:Heq; [|reflexivity].
      apply String.eqb_eq in Heq. subst k.
      now rewrite (lookup_absent key rest Hnotin).
Qed.

(** After [load_dotenv] a variable has the value the environment gave it,
    or else the value of its last binding in the file, if that has one. *)
Lemma load_dotenv_lookup (key : string)
    (bindings : list (string * option string)) (env : list (string * string)) :
  lookup key (load_dotenv bindings env)
  = match lookup key env with
    | Some value => Some value
    | None =>
        match last_binding key bindings with
        | Some (Some value) => Some value
        | _ => None
        end
    end.
Proof.
  unfold load_dotenv.
  destruct (dotenv_values_dict bindings) as [Hkeys Hget].
  now rewrite (set_as_environment_variables_lookup _ _ _ Hkeys), Hget.
Qed.

Lemma last_binding_absent (key : string)
    (bindings : list (string * option string)) :
  lookup key bindings = None -> last_binding key bindings = None.
Proof.
  induction bindings as [|[k v] rest IH]; simpl; [reflexivity|].
  destruct (k =? key)%string; [discriminate|].
  intros H. now rewrite (IH H).
Qed.

(** With no settings file the token is [None] and the map falls back to
    the tiles that need none. *)
Lemma token_no_file (c : config) (df : DataFrame) :
  dotenv_file c = None ->
  token c = Ok None
  /\ mapbox_style (scatter_mapbox None df) = "open-street-map".
Proof. intros H. unfold token. now rewrite H. Qed.

(** With a settings file, and the variable neither in the file nor in the
    environment, line 18 raises. *)
Lemma token_no_variable (c : config)
    (bindings : list (string * option string)) :
  dotenv_file c = Some bindings ->
  lookup "MAPBOX_TOKEN" bindings = None ->
  lookup "MAPBOX_TOKEN" (environ c) = None ->
  token c = Raise (KeyError "MAPBOX_TOKEN").
Proof.
  intros Hfile Hb He. unfold token. rewrite Hfile.
  now rewrite load_dotenv_lookup, He, (last_binding_absent _ _ Hb).
Qed.

(** C4, where the code departs from it.  The settings file is there, the
    variable [MAPBOX_TOKEN] is in neither the file nor the environment:
    the token is not [None], line 18 raises [KeyError] and nothing is
    rendered. *)
Theorem token_missing_variable_raises :
  token config_without_token = Raise (KeyError "MAPBOX_TOKEN").
Proof. reflexivity. Qed.

(** ** The scenarios of the specification *)

Example scenario_all :
  filtered re_unmodelled units_0_10 "" "All" ["A"; "B"] two_records
  = Ok two_records
  /\ forall tie,
       Permutation (filtered_counts tie two_records) [("A", 1); ("B", 1)].
Proof.
  split; [reflexivity|]. intros tie.
  unfold filtered_counts, value_counts_str. now rewrite sort_perm.
Qed.

Example scenario_vacant :
  filtered re_unmodelled units_0_10 "" "Vacant" ["A"; "B"] two_records
  = Ok [row_of_point 0 record_a].
Proof. reflexivity. Qed.

Example scenario_zipcode :
  filtered re_unmodelled units_0_10 "0213" "All" ["A"; "B"] two_records
  = Ok [row_of_point 0 record_a].
Proof. reflexivity. Qed.

(** * Further properties of [main] *)

(** ** The order of floats, continued *)

Lemma float_le_refl (a : float) : isnan a = false -> float_le a a = true.
Proof. intros H. apply float_eq_le. now apply float_eq_refl. Qed.

Lemma float_le_trans (a b c : float) :
  float_le a b = true -> float_le b c = true -> float_le a c = true.
Proof.
  unfold float_le, SFleb. intros Hab Hbc.
  destruct (SFcompare a b) as [[]|] eqn:E1; try discriminate.
  - now rewrite (SFcompare_eq_left a b c E1).
  - destruct (SFcompare b c) as [[]|] eqn:E2; try discriminate.
    + assert (E3 : SFcompare c b = Some Eq)
        by (rewrite (SFcompare_antisym b c), E2; reflexivity).
      rewrite (SFcompare_antisym c a), (SFcompare_eq_left c b a E3).
      rewrite (SFcompare_antisym a b), E1. reflexivity.
    + now rewrite (SFcompare_lt_trans a b c E1 E2).
Qed.

Lemma float_lt_le (a b : float) : float_lt a b = true -> float_le a b = true.
Proof.
  unfold float_lt, float_le, SFltb, SFleb.
  destruct (SFcompare a b) as [[]|]; congruence.
Qed.

Lemma float_le_total (a b : float) :
  isnan a = false -> isnan b = false ->
  float_lt a b = false -> float_le b a = true.
Proof.
  intros Ha Hb. unfold float_lt, float_le, SFltb, SFleb.
  rewrite (SFcompare_antisym a b).
  destruct (SFcompare_defined a b Ha Hb) as [c ->].
  destruct c; simpl; congruence.
Qed.

Lemma float_gt_lt (a b : float) : float_gt a b = float_lt b a.
Proof.
  unfold float_gt, float_lt, SFltb.
  rewrite (SFcompare_antisym a b).
  destruct (SFcompare a b) as [[]|]; reflexivity.
Qed.

Lemma float_lt_nan (a : float) : float_lt a S754_nan = false.
Proof. destruct a; reflexivity. Qed.


(** ** The bounds of the slider *)

Lemma fold_min_bounds (rest : Series float) (current : float) :
  isnan current = false -> Forall (fun v => isnan v = false) rest ->
  let m := fold_left
             (fun current item => if float_lt item current then item else current)
             rest current in
  (m = current \/ In m rest)
  /\ float_le m current = true
  /\ Forall (fun v => float_le m v = true) rest.
Proof.
  revert current. induction rest as [|item rest IH]; intros current Hc Hrest.
  - simpl. split; [now left|]. split; [now apply float_le_refl | constructor].
  - inversion Hrest as [|? ? Hitem Hrest']; subst. simpl.
    destruct (float_lt item current) eqn:Hlt.
    + destruct (IH item Hitem Hrest') as [Hin [Hle Hall]].
      split; [destruct Hin; [right; left; congruence | right; now right]|].
      split; [|now constructor].
      eapply float_le_trans; [exact Hle | now apply float_lt_le].
    + destruct (IH current Hc Hrest') as [Hin [Hle Hall]].
      split; [destruct Hin; [now left | right; now right]|].
      split; [assumption|]. constructor; [|assumption].
      eapply float_le_trans; [exact Hle|].
      now apply float_le_total.
Qed.

Lemma fold_max_bounds (rest : Series float) (current : float) :
  isnan current = false -> Forall (fun v => isnan v = false) rest ->
  let m := fold_left
             (fun current item => if float_gt item current then item else current)
             rest current in
  (m = current \/ In m rest)
  /\ float_le current m = true
  /\ Forall (fun v => float_le v m = true) rest.
Proof.
  revert current. induction rest as [|item rest IH]; intros current Hc Hrest.
  - simpl. split; [now left|]. split; [now apply float_le_refl | constructor].
  - inversion Hrest as [|? ? Hitem Hrest']; subst. simpl.
    rewrite float_gt_lt.
    destruct (float_lt current item) eqn:Hlt.
    + destruct (IH item Hitem Hrest') as [Hin [Hle Hall]].
      split; [destruct Hin; [right; left; congruence | right; now right]|].
      split; [|now constructor].
      eapply float_le_trans; [|exact Hle]. now apply float_lt_le.
    + destruct (IH current Hc Hrest') as [Hin [Hle Hall]].
      split; [destruct Hin; [now left | right; now right]|].
      split; [assumption|]. constructor; [|assumption].
      eapply float_le_trans; [|exact Hle].
      now apply float_le_total.
Qed.

(** X1.  On a column with at least one value and no NaN, [min] and [max]
    return values of the column, [min] at most every value and [max] at
    least every value. *)
Theorem builtin_min_max_bounds (s : Series float) :
  s <> [] -> Forall (fun v => isnan v = false) s ->
  exists low high,
    builtin_min s = Ok low /\ builtin_max s = Ok high
    /\ In low s /\ In high s
    /\ forall v, In v s -> float_le low v = true /\ float_le v high = true.
Proof.
  intros Hne Hs. destruct s as [|first rest]; [congruence|].
  inversion Hs as [|? ? Hfirst Hrest]; subst.
  destruct (fold_min_bounds rest first Hfirst Hrest) as [Hin [Hle Hall]].
  destruct (fold_max_bounds rest first Hfirst Hrest) as [Hin' [Hle' Hall']].
  do 2 eexists. split; [reflexivity|]. split; [reflexivity|].
  split; [destruct Hin as [-> | Hin]; [now left | now right]|].
  split; [destruct Hin' as [-> | Hin']; [now left | now right]|].
  rewrite Forall_forall in Hall, Hall'.
  intros v [<- | Hv]; auto.
Qed.

(** The column of the two records. *)
Lemma builtin_min_max_bounds_witness :
  exists low high,
    builtin_min (column tUNITS two_records) = Ok low
    /\ builtin_max (column tUNITS two_records) = Ok high
    /\ In low (column tUNITS two_records)
    /\ In high (column tUNITS two_records)
    /\ forall v, In v (column tUNITS two_records) ->
                 float_le low v = true /\ float_le v high = true.
Proof.
  apply (builtin_min_max_bounds (column tUNITS two_records)).
  - discriminate.
  - repeat constructor.
Defined.

Lemma fold_min_nan (rest : Series float) :
  fold_left (fun current item => if float_lt item current then item else current)
    rest S754_nan = S754_nan.
Proof.
  induction rest as [|item rest IH]; simpl; [reflexivity|].
  now rewrite float_lt_nan.
Qed.

Lemma fold_max_nan (rest : Series float) :
  fold_left (fun current item => if float_gt item current then item else current)
    rest S754_nan = S754_nan.
Proof.
  induction rest as [|item rest IH]; simpl; [reflexivity|].
  rewrite float_gt_lt. now destruct item.
Qed.

Lemma isnan_eq (a : float) : isnan a = true -> a = S754_nan.
Proof. destruct a; simpl; congruence. Qed.

(** X2.  When the first [tUNITS] of the table is NaN, no later value
    replaces it: the slider is given NaN for both bounds and for both
    ends of its value. *)
Theorem slider_arguments_nan (first : row) (rest : DataFrame) :
  isnan (tUNITS first) = true ->
  slider_arguments (first :: rest)
  = Ok (S754_nan, S754_nan, (S754_nan, S754_nan)).
Proof.
  intros H. unfold slider_arguments, column. simpl.
  rewrite (isnan_eq _ H), fold_min_nan, fold_max_nan. reflexivity.
Qed.

(** A table whose first row has no unit count. *)
Lemma slider_arguments_nan_witness :
  slider_arguments table_with_nan
  = Ok (S754_nan, S754_nan, (S754_nan, S754_nan)).
Proof.
  apply (slider_arguments_nan (row_of_point 0 record_nan)
           [row_of_point 1 record_a]).
  reflexivity.
Defined.

(** ** The options of the multiselect *)

Lemma existsb_eqb_false (v : string) (seen : list string) :
  existsb (String.eqb v) seen = false <-> ~ In v seen.
Proof.
  rewrite <- existsb_eqb_In. destruct (existsb (String.eqb v) seen);
    split; congruence.
Qed.

Lemma unique_from_In (s : Series string) (seen : list string) (v : string) :
  In v (unique_from seen s) <-> In v s /\ ~ In v seen.
Proof.
  revert seen. induction s as [|v0 rest IH]; intros seen; simpl.
  - tauto.
  - destruct (existsb (String.eqb v0) seen) eqn:Hseen.
    + apply existsb_eqb_In in Hseen. rewrite IH. split.
      * intros [Hin Hnot]. auto.
      * intros [[-> | Hin] Hnot]; [contradiction | auto].
    + apply existsb_eqb_false in Hseen. simpl. rewrite IH. simpl. split.
      * intros [-> | [Hin Hnot]]; [auto | split; [auto | tauto]].
      * intros [[-> | Hin] Hnot]; [now left|].
        destruct (string_dec v0 v) as [-> | Hne]; [now left|].
        right. split; [assumption|]. intros [H | H]; [congruence | contradiction].
Qed.

Lemma unique_from_NoDup (s : Series string) (seen : list string) :
  NoDup (unique_from seen s).
Proof.
  revert seen. induction s as [|v0 rest IH]; intros seen; simpl.
  - constructor.
  - destruct (existsb (String.eqb v0) seen); [apply IH|].
    constructor; [|apply IH].
    rewrite unique_from_In. intros [_ Hnot]. apply Hnot. now left.
Qed.

(** X4.  The multiselect offers every building type of the table once,
    and nothing else, and starts with all of them selected. *)
Theorem multiselect_arguments_types (data : DataFrame) :
  fst (multiselect_arguments data) = snd (multiselect_arguments data)
  /\ NoDup (fst (multiselect_arguments data))
  /\ forall t,
       In t (fst (multiselect_arguments data)) <->
       exists r, In r data /\ building_type r = t.
Proof.
  unfold multiselect_arguments, unique. simpl.
  split; [reflexivity|]. split; [apply unique_from_NoDup|].
  intros t. rewrite unique_from_In. unfold column. rewrite in_map_iff.
  split.
  - intros [[r [Ht Hin]] _]. exists r. auto.
  - intros [r [Hin Ht]]. split; [exists r; auto | intros []].
Qed.

(** ** The first render *)

Lemma filter_all {A : Type} (p : A -> bool) (l : list A) :
  (forall a, In a l -> p a = true) -> List.filter p l = l.
Proof.
  induction l as [|a l IH]; simpl; intros H; [reflexivity|].
  rewrite (H a (or_introl eq_refl)). f_equal. apply IH. auto.
Qed.

(** X5.  On a table with at least one row and no NaN among the unit
    counts, the widgets left as they start (the slider on the whole
    range from [min] to [max], no zipcode text, "All", every building type)
    make the filter keep the whole table. *)
Theorem filtered_at_start (re_other : string -> result (string -> bool))
    (data : DataFrame) :
  data <> [] ->
  Forall (fun v => isnan v = false) (column tUNITS data) ->
  exists low high,
    slider_arguments data = Ok (low, high, (low, high))
    /\ filtered re_other (low, high) "" "All"
         (snd (multiselect_arguments data)) data
       = Ok data.
Proof.
  intros Hne Hnum. destruct data as [|first rest]; [congruence|].
  unfold column in Hnum. simpl in Hnum.
  inversion Hnum as [|? ? Hfirst Hrest]; subst.
  destruct (fold_min_bounds _ _ Hfirst Hrest) as [_ [Hlow Hlows]].
  destruct (fold_max_bounds _ _ Hfirst Hrest) as [_ [Hhigh Hhighs]].
  rewrite Forall_forall in Hlows, Hhighs.
  do 2 eexists. split; [reflexivity|].
  rewrite (filtered_rows re_other _ "" _ _ _ (search_items []) eq_refl).
  f_equal. apply filter_all. intros r Hr.
  apply row_passes_iff. split; [|split; [|split]].
  - destruct Hr as [<- | Hr]; [now split|].
    split; [apply Hlows | apply Hhighs]; now apply in_map.
  - change (In (building_type r)
              (unique_from [] (column building_type (first :: rest)))).
    apply unique_from_In. split; [|intros []].
    unfold column. now apply in_map.
  - now destruct (zipcode_str r).
  - now left.
Qed.

(** The two records. *)
Lemma filtered_at_start_witness :
  exists low high,
    slider_arguments two_records = Ok (low, high, (low, high))
    /\ filtered re_unmodelled (low, high) "" "All"
         (snd (multiselect_arguments two_records)) two_records
       = Ok two_records.
Proof.
  apply (filtered_at_start re_unmodelled two_records).
  - discriminate.
  - repeat constructor.
Defined.

(** ** The distribution of building types *)

Lemma total_perm {K : Type} (l l' : list (K * nat)) :
  Permutation l l' -> total l = total l'.
Proof.
  unfold total. induction 1; simpl; lia.
Qed.

Section TallyFacts.

Context {K : Type}.
Variable same : K -> K -> bool.

Lemma count_value_total (v : K) (counts : list (K * nat)) :
  total (count_value same v counts) = S (total counts).
Proof.
  unfold total. induction counts as [|[k n] rest IH]; simpl; [reflexivity|].
  destruct (same k v); simpl; lia.
Qed.

Lemma tally_total (s : Series K) : total (tally same s) = List.length s.
Proof.
  unfold tally.
  assert (G : forall acc,
             total (fold_left (fun counts v => count_value same v counts) s acc)
             = total acc + List.length s).
  { induction s as [|v s IH]; intros acc; simpl; [lia|].
    rewrite IH, count_value_total. lia. }
  now rewrite G.
Qed.

Hypothesis same_eq : forall a b, same a b = true <-> a = b.

(** The count a table gives to the key [k]. *)
Let given (counts : list (K * nat)) (k : K) : nat :=
  total (List.filter (fun p => same (fst p) k) counts).

Lemma same_refl (a : K) : same a a = true.
Proof. now apply same_eq. Qed.

Lemma given_count_value (v k : K) (counts : list (K * nat)) :
  given (count_value same v counts) k
  = given counts k + (if same v k then 1 else 0).
Proof.
  unfold given, total. induction counts as [|[k' n] rest IH]; simpl.
  - destruct (same v k); reflexivity.
  - destruct (same k' v) eqn:Hv; simpl.
    + apply same_eq in Hv. subst k'.
      destruct (same v k); simpl; lia.
    + destruct (same k' k); simpl; rewrite IH; lia.
Qed.

Lemma given_tally (s : Series K) (k : K) :
  given (tally same s) k = List.length (List.filter (fun v => same v k) s).
Proof.
  unfold tally.
  assert (G : forall acc,
             given (fold_left (fun counts v => count_value same v counts) s acc) k
             = given acc k + List.length (List.filter (fun v => same v k) s)).
  { induction s as [|v s IH]; intros acc; simpl; [lia|].
    rewrite IH, given_count_value. destruct (same v k); simpl; lia. }
  now rewrite G.
Qed.

Lemma count_value_keys (v k : K) (counts : list (K * nat)) :
  In k (map fst (count_value same v counts)) <->
  k = v \/ In k (map fst counts).
Proof.
  induction counts as [|[k' n] rest IH]; simpl.
  - intuition.
  - destruct (same k' v) eqn:Hv; simpl.
    + apply same_eq in Hv. subst k'. intuition.
    + rewrite IH. intuition.
Qed.

Lemma count_value_NoDup (v : K) (counts : list (K * nat)) :
  NoDup (map fst counts) -> NoDup (map fst (count_value same v counts)).
Proof.
  induction counts as [|[k' n] rest IH]; simpl; intros H.
  - repeat constructor. intros [].
  - inversion H as [|? ? Hnotin Hrest]; subst.
    destruct (same k' v) eqn:Hv; simpl.
    + now constructor.
    + constructor; [|auto].
      rewrite count_value_keys. intros [-> | Hin]; [|contradiction].
      rewrite same_refl in Hv. discriminate.
Qed.

Lemma tally_NoDup (s : Series K) : NoDup (map fst (tally same s)).
Proof.
  unfold tally.
  assert (G : forall acc,
             NoDup (map fst acc) ->
             NoDup (map fst
                      (fold_left (fun counts v => count_value same v counts)
                         s acc))).
  { induction s as [|v s IH]; intros acc Hacc; simpl; [assumption|].
    apply IH. now apply count_value_NoDup. }
  apply G. constructor.
Qed.

Lemma count_value_counts (v : K) (counts : list (K * nat)) :
  Forall (fun p => 0 < snd p) counts ->
  Forall (fun p => 0 < snd p) (count_value same v counts).
Proof.
  induction 1 as [|[k n] rest Hn Hrest IH]; simpl.
  - repeat constructor.
  - simpl in Hn. destruct (same k v); constructor; simpl; auto; lia.
Qed.

Lemma tally_counts (s : Series K) :
  Forall (fun p => 0 < snd p) (tally same s).
Proof.
  unfold tally.
  assert (G : forall acc,
             Forall (fun p => 0 < snd p) acc ->
             Forall (fun p => 0 < snd p)
               (fold_left (fun counts v => count_value same v counts) s acc)).
  { induction s as [|v s IH]; intros acc Hacc; simpl; [assumption|].
    apply IH. now apply count_value_counts. }
  apply G. constructor.
Qed.

(** With one entry per key, an entry holds all its key is given. *)
Lemma given_entry (counts : list (K * nat)) (k : K) (n : nat) :
  NoDup (map fst counts) -> In (k, n) counts -> given counts k = n.
Proof.
  unfold given, total.
  induction counts as [|[k' n'] rest IH]; simpl; intros Hkeys Hin.
  - contradiction.
  - inversion Hkeys as [|? ? Hnotin Hrest]; subst.
    destruct Hin as [Heq | Hin].
    + inversion Heq; subst. rewrite same_refl. simpl.
      assert (Hnone : List.filter (fun p => same (fst p) k) rest = []).
      { clear IH Hrest Heq Hkeys.
        induction rest as [|[k2 n2] rest IH]; simpl.
        - reflexivity.
        - simpl in Hnotin. destruct (same k2 k) eqn:Hk.
          + apply same_eq in Hk. tauto.
          + apply IH. tauto. }
      rewrite Hnone. simpl. lia.
    + destruct (same k' k) eqn:Hk.
      * apply same_eq in Hk. subst k'. exfalso. apply Hnotin.
        apply in_map_iff. now exists (k, n).
      * now apply IH.
Qed.

Lemma given_positive (counts : list (K * nat)) (k : K) :
  0 < given counts k -> exists n, In (k, n) counts.
Proof.
  unfold given, total.
  induction counts as [|[k' n'] rest IH]; simpl; intros H; [lia|].
  destruct (same k' k) eqn:Hk.
  - apply same_eq in Hk. subst k'. exists n'. now left.
  - destruct (IH H) as [n Hin]. exists n. now right.
Qed.

End TallyFacts.

(** Entries in descending order of their counts, whatever order the ties
    take. *)
Section CountOrder.

Context {K : Type}.
Variable tie : K -> K -> bool.

Let before (p q : K * nat) : bool :=
  (snd q <? snd p)%nat || ((snd q =? snd p)%nat && tie (fst p) (fst q)).

Lemma before_true (p q : K * nat) : before p q = true -> snd q <= snd p.
Proof.
  unfold before. rewrite orb_true_iff, andb_true_iff.
  rewrite Nat.ltb_lt, Nat.eqb_eq. lia.
Qed.

Lemma before_false (p q : K * nat) : before p q = false -> snd p <= snd q.
Proof.
  unfold before. rewrite orb_false_iff, Nat.ltb_ge. tauto.
Qed.

Lemma insert_by_count (a : K * nat) (l : list (K * nat)) :
  StronglySorted (fun p q => snd q <= snd p) l ->
  StronglySorted (fun p q => snd q <= snd p) (insert before a l).
Proof.
  induction 1 as [|b l Hl IH Hb]; simpl.
  - repeat constructor.
  - destruct (before b a) eqn:Hba.
    + apply before_true in Hba. constructor; [assumption|].
      rewrite (insert_perm _ a l). now constructor.
    + apply before_false in Hba.
      constructor; [now constructor|].
      constructor; [assumption|].
      eapply Forall_impl; [|exact Hb]. simpl. intros c Hc. lia.
Qed.

Lemma sort_by_count (l : list (K * nat)) :
  StronglySorted (fun p q => snd q <= snd p) (sort before l).
Proof.
  induction l as [|a l IH]; simpl; [constructor|].
  now apply insert_by_count.
Qed.

End CountOrder.

Lemma filtered_counts_perm (tie : string -> string -> bool) (df : DataFrame) :
  Permutation (filtered_counts tie df)
    (tally String.eqb (column building_type df)).
Proof. unfold filtered_counts, value_counts_str. apply sort_perm. Qed.

Lemma length_filter_column {A : Type} (name : row -> A) (p : A -> bool)
    (df : DataFrame) :
  List.length (List.filter p (column name df))
  = len (List.filter (fun r => p (name r)) df).
Proof.
  unfold column, len. induction df as [|r df IH]; simpl; [reflexivity|].
  destruct (p (name r)); simpl; now rewrite IH.
Qed.

(** X7.  The distribution of building types over a frame has one entry
    per type present, most frequent first, whatever order the types of
    equal count take: the counts never increase along the entries, no
    type has two entries, the count of an entry is the number of rows of
    its type, at least one, and the type of every row has an entry. *)
Theorem filtered_counts_exact (tie : string -> string -> bool)
    (df : DataFrame) :
  StronglySorted (fun p q => snd q <= snd p) (filtered_counts tie df)
  /\ NoDup (map fst (filtered_counts tie df))
  /\ (forall t n,
        In (t, n) (filtered_counts tie df) ->
        0 < n
        /\ n = len (List.filter (fun r => (building_type r =? t)%string) df))
  /\ (forall r,
        In r df ->
        exists n, In (building_type r, n) (filtered_counts tie df)).
Proof.
  pose proof (filtered_counts_perm tie df) as Hperm.
  split; [|split; [|split]].
  - unfold filtered_counts, value_counts_str. apply (sort_by_count tie).
  - apply (Permutation_NoDup (Permutation_map fst (Permutation_sym Hperm))).
    apply (tally_NoDup String.eqb String.eqb_eq).
  - intros t n Hin. apply (Permutation_in _ Hperm) in Hin. split.
    + pose proof (tally_counts String.eqb (column building_type df)) as Hpos.
      rewrite Forall_forall in Hpos. exact (Hpos _ Hin).
    + rewrite <- (given_entry String.eqb String.eqb_eq _ t n
                    (tally_NoDup String.eqb String.eqb_eq _) Hin).
      rewrite (given_tally String.eqb String.eqb_eq).
      apply (length_filter_column building_type (fun v => (v =? t)%string)).
  - intros r Hr.
    destruct (given_positive String.eqb String.eqb_eq
                (tally String.eqb (column building_type df))
                (building_type r)) as [n Hn].
    + rewrite (given_tally String.eqb String.eqb_eq).
      assert (Hin : In (building_type r)
                      (List.filter
                         (fun v => (v =? building_type r)%string)
                         (column building_type df))).
      { apply filter_In. split; [now apply in_map | apply String.eqb_refl]. }
      destruct (List.filter _ (column building_type df));
        simpl; [contradiction | lia].
    + exists n. exact (Permutation_in _ (Permutation_sym Hperm) Hn).
Qed.

(** X8.  Both charts account for every row the filter keeps: the counts
    of the building types add up to the number of filtered rows, and so
    do the counts of the unit values. *)
Theorem distributions_total (re_other : string -> result (string -> bool))
    (tie : string -> string -> bool) su zc sv bt data f :
  filtered re_other su zc sv bt data = Ok f ->
  total (filtered_counts tie f) = len f
  /\ total (unit_distribution f) = len f.
Proof.
  intros Hf. split.
  - rewrite (total_perm _ _ (filtered_counts_perm tie f)), tally_total.
    unfold column, len. apply length_map.
  - rewrite (total_perm _ _ (unit_distribution_perm f)), tally_total.
    rewrite filter_all.
    + unfold column, len. apply length_map.
    + intros v Hv. unfold column in Hv. apply in_map_iff in Hv.
      destruct Hv as [r [<- Hr]].
      pose proof (filtered_numbers re_other _ _ _ _ _ _ Hf) as Hnum.
      rewrite Forall_forall in Hnum. now rewrite (Hnum r Hr).
Qed.

(** The two records, unfiltered. *)
Lemma distributions_total_witness :
  total (filtered_counts String.ltb two_records) = len two_records
  /\ total (unit_distribution two_records) = len two_records.
Proof.
  apply (distributions_total re_unmodelled String.ltb units_0_10 "" "All"
           ["A"; "B"]
           two_records two_records).
  reflexivity.
Defined.

(** ** How the settings of the filter combine *)

Lemma length_filter_split {A : Type} (p q q' : A -> bool) (l : list A) :
  (forall a, p a = q a || q' a) -> (forall a, q a && q' a = false) ->
  List.length (List.filter p l)
  = List.length (List.filter q l) + List.length (List.filter q' l).
Proof.
  intros Hp Hq. induction l as [|a l IH]; simpl; [reflexivity|].
  rewrite (Hp a). specialize (Hq a).
  destruct (q a), (q' a); simpl in *; try discriminate; lia.
Qed.

Lemma filter_mono_subframe (p q : row -> bool) (df : DataFrame) :
  (forall r, p r = true -> q r = true) ->
  subframe (List.filter p df) (List.filter q df).
Proof.
  intros H. induction df as [|r df IH]; simpl; [constructor|].
  destruct (p r) eqn:Hp.
  - rewrite (H r Hp). now constructor.
  - destruct (q r); [now constructor | assumption].
Qed.

Lemma filter_swap {A : Type} (p q : A -> bool) (l : list A) :
  List.filter q (List.filter p l) = List.filter p (List.filter q l).
Proof.
  induction l as [|a l IH]; simpl; [reflexivity|].
  destruct (p a) eqn:Hp, (q a) eqn:Hq; simpl;
    rewrite ?Hp, ?Hq, IH; reflexivity.
Qed.

Lemma row_passes_vacancy su regex bt (r : row) :
  row_passes su regex "All" bt r
  = row_passes su regex "Vacant" bt r || row_passes su regex "Not Vacant" bt r
  /\ row_passes su regex "Vacant" bt r && row_passes su regex "Not Vacant" bt r
     = false
  /\ (row_passes su regex "Vacant" bt r = true -> vacant r = true)
  /\ (row_passes su regex "Not Vacant" bt r = true -> vacant r = false).
Proof.
  unfold row_passes.
  change ("All" =? "All")%string with true.
  change ("All" =? "Vacant")%string with false.
  change ("Vacant" =? "All")%string with false.
  change ("Vacant" =? "Vacant")%string with true.
  change ("Not Vacant" =? "All")%string with false.
  change ("Not Vacant" =? "Vacant")%string with false.
  destruct (vacant r); simpl;
    destruct (float_le (fst su) (tUNITS r) && float_le (tUNITS r) (snd su)
              && existsb (String.eqb (building_type r)) bt
              && regex (zipcode_str r));
    simpl; repeat split; congruence.
Qed.

Section CombinationFacts.

Variable re_other : string -> result (string -> bool).

(** X9.  The vacancy selector splits the result: for every other setting
    whose zipcode text compiles, each row kept under "All" is kept under
    exactly one of "Vacant" and "Not Vacant", the first keeps vacant rows
    only and the second none, and the three results have as many rows as
    that makes. *)
Theorem filtered_vacancy_split su zc bt data regex :
  re_compile re_other zc = Ok regex ->
  exists every vacants others,
    filtered re_other su zc "All" bt data = Ok every
    /\ filtered re_other su zc "Vacant" bt data = Ok vacants
    /\ filtered re_other su zc "Not Vacant" bt data = Ok others
    /\ len every = len vacants + len others
    /\ (forall r, In r every <-> In r vacants \/ In r others)
    /\ Forall (fun r => vacant r = true) vacants
    /\ Forall (fun r => vacant r = false) others.
Proof.
  intros Hre. do 3 eexists.
  rewrite !(filtered_rows re_other _ _ _ _ _ _ Hre).
  split; [reflexivity|]. split; [reflexivity|]. split; [reflexivity|].
  split; [|split; [|split]].
  - unfold len. apply length_filter_split; intros r;
      apply (row_passes_vacancy su regex bt r).
  - intros r. rewrite !filter_In.
    destruct (row_passes_vacancy su regex bt r) as [-> _].
    rewrite orb_true_iff. tauto.
  - apply Forall_forall. intros r Hr. apply filter_In in Hr.
    now apply (row_passes_vacancy su regex bt r).
  - apply Forall_forall. intros r Hr. apply filter_In in Hr.
    now apply (row_passes_vacancy su regex bt r).
Qed.

(** X10.  Narrowing the settings only removes rows: with the same zipcode
    text and vacancy selector, a range inside another range and building
    types among other building types keep rows that the wider settings
    keep too, in the same order. *)
Theorem filtered_narrowing lo hi lo' hi' zc sv bt bt' data regex :
  re_compile re_other zc = Ok regex ->
  float_le lo' lo = true -> float_le hi hi' = true -> incl bt bt' ->
  exists narrow wide,
    filtered re_other (lo, hi) zc sv bt data = Ok narrow
    /\ filtered re_other (lo', hi') zc sv bt' data = Ok wide
    /\ subframe narrow wide.
Proof.
  intros Hre Hlo Hhi Hbt. do 2 eexists.
  rewrite !(filtered_rows re_other _ _ _ _ _ _ Hre).
  split; [reflexivity|]. split; [reflexivity|].
  apply filter_mono_subframe. intros r. rewrite !row_passes_iff.
  intros [[H1 H2] [H3 [H4 H5]]]. repeat split; auto.
  - eapply float_le_trans; eassumption.
  - eapply float_le_trans; eassumption.
Qed.

(** X11.  Two settings of the filter applied one after the other keep the
    rows that each of them keeps on its own, whichever comes first. *)
Theorem filtered_twice_commutes su zc sv bt su' zc' sv' bt' data regex regex' :
  re_compile re_other zc = Ok regex ->
  re_compile re_other zc' = Ok regex' ->
  exists first second both,
    filtered re_other su zc sv bt data = Ok first
    /\ filtered re_other su' zc' sv' bt' data = Ok second
    /\ filtered re_other su' zc' sv' bt' first = Ok both
    /\ filtered re_other su zc sv bt second = Ok both
    /\ forall r, In r both <-> In r first /\ In r second.
Proof.
  intros Hre Hre'. do 3 eexists.
  rewrite !(filtered_rows re_other _ _ _ _ _ _ Hre).
  rewrite !(filtered_rows re_other _ _ _ _ _ _ Hre').
  split; [reflexivity|]. split; [reflexivity|]. split; [reflexivity|].
  split; [now rewrite filter_swap|].
  intros r. rewrite !filter_In. tauto.
Qed.

(** X12.  A row without a unit count (NaN) is never kept, whatever the
    range of the slider. *)
Theorem filtered_drops_nan su zc sv bt data f r :
  filtered re_other su zc sv bt data = Ok f ->
  isnan (tUNITS r) = true -> ~ In r f.
Proof.
  intros Hf Hnan Hin.
  pose proof (filtered_numbers re_other _ _ _ _ _ _ Hf) as Hnum.
  rewrite Forall_forall in Hnum. rewrite (Hnum r Hin) in Hnan. discriminate.
Qed.

End CombinationFacts.

(** The two records under the zipcode text 021. *)
Lemma filtered_vacancy_split_witness :
  exists every vacants others,
    filtered re_unmodelled units_0_10 "021" "All" ["A"; "B"] two_records
    = Ok every
    /\ filtered re_unmodelled units_0_10 "021" "Vacant" ["A"; "B"] two_records
       = Ok vacants
    /\ filtered re_unmodelled units_0_10 "021" "Not Vacant" ["A"; "B"]
         two_records
       = Ok others
    /\ len every = len vacants + len others
    /\ (forall r, In r every <-> In r vacants \/ In r others)
    /\ Forall (fun r => vacant r = true) vacants
    /\ Forall (fun r => vacant r = false) others.
Proof.
  apply (filtered_vacancy_split re_unmodelled units_0_10 "021" ["A"; "B"]
           two_records
           (search_items [LITERAL "0"; LITERAL "2"; LITERAL "1"])).
  reflexivity.
Defined.

(** The range from 2 to 5 and the type A, inside the range from 0 to 10
    and the types A and B. *)
Lemma filtered_narrowing_witness :
  exists narrow wide,
    filtered re_unmodelled (float_of_Z 2, float_of_Z 5) "021" "All" ["A"]
      two_records = Ok narrow
    /\ filtered re_unmodelled (float_of_Z 0, float_of_Z 10) "021" "All"
         ["A"; "B"] two_records = Ok wide
    /\ subframe narrow wide.
Proof.
  apply (filtered_narrowing re_unmodelled (float_of_Z 2) (float_of_Z 5)
           (float_of_Z 0) (float_of_Z 10) "021" "All" ["A"] ["A"; "B"]
           two_records
           (search_items [LITERAL "0"; LITERAL "2"; LITERAL "1"])).
  - reflexivity.
  - reflexivity.
  - reflexivity.
  - intros t [<- | []]. now left.
Defined.

(** The vacant buildings, and the buildings of zipcode 02139. *)
Lemma filtered_twice_commutes_witness :
  exists first second both,
    filtered re_unmodelled units_0_10 "" "Vacant" ["A"; "B"] two_records
    = Ok first
    /\ filtered re_unmodelled units_0_10 "02139" "All" ["A"; "B"] two_records
       = Ok second
    /\ filtered re_unmodelled units_0_10 "02139" "All" ["A"; "B"] first
       = Ok both
    /\ filtered re_unmodelled units_0_10 "" "Vacant" ["A"; "B"] second
       = Ok both
    /\ forall r, In r both <-> In r first /\ In r second.
Proof.
  apply (filtered_twice_commutes re_unmodelled units_0_10 "" "Vacant"
           ["A"; "B"] units_0_10 "02139" "All" ["A"; "B"] two_records
           (search_items [])
           (search_items [LITERAL "0"; LITERAL "2"; LITERAL "1"; LITERAL "3";
                          LITERAL "9"])).
  - reflexivity.
  - reflexivity.
Defined.

(** The table that starts with a building without a unit count, under
    the widest range. *)
Lemma filtered_drops_nan_witness :
  ~ In (row_of_point 0 record_nan) [row_of_point 1 record_a].
Proof.
  apply (filtered_drops_nan re_unmodelled units_all "" "All" ["A"]
           table_with_nan [row_of_point 1 record_a]
           (row_of_point 0 record_nan)).
  - reflexivity.
  - reflexivity.
Defined.

(** ** Where the token comes from *)

(** X13.  The token is read in this order: without a settings file there
    is no token, also when the environment has the variable; with a
    settings file the value of the environment comes first, then the value
    the last line of the file that names the variable gives it, and a
    variable the environment lacks and the file does not name, or names
    last without a value, is a [KeyError]. *)
Theorem token_resolution (c : config) :
  token c
  = match dotenv_file c with
    | None => Ok None
    | Some bindings =>
        match lookup "MAPBOX_TOKEN" (environ c) with
        | Some value => Ok (Some value)
        | None =>
            match last_binding "MAPBOX_TOKEN" bindings with
            | Some (Some value) => Ok (Some value)
            | _ => Raise (KeyError "MAPBOX_TOKEN")
            end
        end
    end.
Proof.
  unfold token. destruct (dotenv_file c) as [bindings|]; [|reflexivity].
  rewrite load_dotenv_lookup.
  destruct (lookup "MAPBOX_TOKEN" (environ c)); [reflexivity|].
  destruct (last_binding "MAPBOX_TOKEN" bindings) as [[value|]|]; reflexivity.
Qed.

(** X14.  The map carries a token exactly when the token is a non-empty
    string: every chart of the map section either has the style "basic"
    and that token, or has the style "open-street-map" and no token, the
    latter also for a token that is the empty string. *)
Theorem building_map_token (tok : option string) (permutation : list nat)
    (f : DataFrame) (page : list element) (fig : figure) :
  building_map tok permutation f = Ok page ->
  In (plotly_chart fig) page ->
  (exists c rest,
      tok = Some (String c rest)
      /\ mapbox_style fig = "basic" /\ mapbox_accesstoken fig = tok)
  \/ ((tok = None \/ tok = Some "")
      /\ mapbox_style fig = "open-street-map"
      /\ mapbox_accesstoken fig = None).
Proof.
  intros Hpage Hin.
  assert (Hfig : exists df, fig = scatter_mapbox tok df).
  { unfold building_map in Hpage.
    destruct (1000 <? len f)%nat.
    - destruct (sample permutation 1000 f) as [shown|e]; [|discriminate].
      simpl in Hpage. inversion Hpage; subst.
      destruct Hin as [H | [H | [H | [H | []]]]]; try discriminate.
      inversion H. now exists shown.
    - inversion Hpage; subst.
      destruct Hin as [H | [H | [H | []]]]; try discriminate.
      inversion H. now exists f. }
  destruct Hfig as [df ->]. unfold scatter_mapbox.
  destruct tok as [[|c rest]|]; simpl.
  - right. auto.
  - left. exists c, rest. auto.
  - right. auto.
Qed.

(** The two records under a settings file with an empty token. *)
Lemma building_map_token_witness :
  (exists c rest,
      Some "" = Some (String c rest)
      /\ mapbox_style (scatter_mapbox (Some "") two_records) = "basic"
      /\ mapbox_accesstoken (scatter_mapbox (Some "") two_records) = Some "")
  \/ ((Some "" = None \/ Some "" = Some "")
      /\ mapbox_style (scatter_mapbox (Some "") two_records)
         = "open-street-map"
      /\ mapbox_accesstoken (scatter_mapbox (Some "") two_records) = None).
Proof.
  apply (building_map_token (Some "") [] two_records
           [header "Building Map"; write "Number of buildings: 2";
            plotly_chart (scatter_mapbox (Some "") two_records)]
           (scatter_mapbox (Some "") two_records)).
  - reflexivity.
  - right. right. left. reflexivity.
Defined.

(** ** A longer zipcode text *)

Lemma string_append_assoc (a b c : string) :
  ((a ++ b) ++ c = a ++ (b ++ c))%string.
Proof. induction a as [|ch a IH]; simpl; [reflexivity | now rewrite IH]. Qed.

Lemma substring_of_trans (a b c : string) :
  substring_of a b -> substring_of b c -> substring_of a c.
Proof.
  intros [b1 [b2 ->]] [c1 [c2 ->]].
  exists (c1 ++ b1)%string, (b2 ++ c2)%string.
  now rewrite !string_append_assoc.
Qed.

(** X15.  Typing more of a zipcode only removes rows: for two texts of
    ordinary characters, one containing the other, the rows kept under
    the longer text are kept under the shorter one, in the same order. *)
Theorem filtered_longer_zipcode
    (re_other : string -> result (string -> bool)) su zc zc' sv bt data :
  plain zc = true -> plain zc' = true -> substring_of zc zc' ->
  exists wide narrow,
    filtered re_other su zc sv bt data = Ok wide
    /\ filtered re_other su zc' sv bt data = Ok narrow
    /\ subframe narrow wide.
Proof.
  intros Hzc Hzc' Hsub. do 2 eexists.
  rewrite (filtered_rows re_other _ _ _ _ _ _ (re_compile_plain re_other zc Hzc)).
  rewrite (filtered_rows re_other _ _ _ _ _ _
             (re_compile_plain re_other zc' Hzc')).
  split; [reflexivity|]. split; [reflexivity|].
  apply filter_mono_subframe. intros r. destruct su as [lo hi].
  rewrite !row_passes_iff, !search_literal.
  intros [H1 [H2 [H3 H4]]]. repeat split; try tauto.
  eapply substring_of_trans; eassumption.
Qed.

(** The text 0213 typed on to 02139. *)
Lemma filtered_longer_zipcode_witness :
  exists wide narrow,
    filtered re_unmodelled units_0_10 "0213" "All" ["A"; "B"] two_records
    = Ok wide
    /\ filtered re_unmodelled units_0_10 "02139" "All" ["A"; "B"] two_records
       = Ok narrow
    /\ subframe narrow wide.
Proof.
  apply (filtered_longer_zipcode re_unmodelled units_0_10 "0213" "02139"
           "All" ["A"; "B"] two_records).
  - reflexivity.
  - reflexivity.
  - exists "", "9". reflexivity.
Defined.
